(** * wa-server: the WhatsApp connection service and the message route

    A shallow embedding of [src/services/whatsappService.js] (the
    [WhatsAppService] singleton) and of the [POST /message] handler of
    [src/routes/messageRoutes.js], with the properties of the connection
    lifecycle and of the dispatcher stated over it.

    Conventions of the embedding:
    - JavaScript numbers that hold counters, delays and timestamps are [Z]
      (all values involved are integers far below 2^53);
    - [null]/[undefined] are [None]; truthiness tests are written out;
    - an [async] method is a computation in the monad [js] below: it
      threads the whole process state and either returns or throws.  Each
      method runs as one step (the awaits inside [connect] are not
      interleaved with other callbacks);
    - the Baileys socket, the clock, the timer queue, the session folder
      and the logger are fields of [world]; what the socket library
      answers (construction, send) is read from the [world] as well, so
      the environment may set it to anything between two steps. *)

From Stdlib Require Import ZArith Bool Ascii String Lia.
From stdpp Require Import base list strings.

Open Scope string_scope.
Open Scope Z_scope.

(* ------------------------------------------------------------------ *)
(** ** JavaScript helpers *)

Module JS.

(** [if (s)] for a value that is a string or null/undefined. *)
Definition truthy_str (o : option string) : bool :=
  match o with
  | Some s => negb (String.eqb s "")
  | None => false
  end.

(** [if (n)] for a value that is a number or null. *)
Definition truthy_num (o : option Z) : bool :=
  match o with
  | Some n => negb (n =? 0)
  | None => false
  end.

(** [Math.ceil(n / d)] for integers [n] and [d > 0]. *)
Definition ceil_div (n d : Z) : Z := - ((- n) / d).

(** [Math.round(n / d)] for integers [n] and [d > 0]: halves go up. *)
Definition round_div (n d : Z) : Z := (2 * n + d) / (2 * d).

(** [\d] *)
Definition is_digit (c : ascii) : bool :=
  let n := nat_of_ascii c in ((48 <=? n) && (n <=? 57))%nat.

(** [[1-9]] *)
Definition is_1_9 (c : ascii) : bool :=
  let n := nat_of_ascii c in ((49 <=? n) && (n <=? 57))%nat.

(** [s.replace(/\D/g, '')] *)
Fixpoint replace_non_digits (s : string) : string :=
  match s with
  | EmptyString => EmptyString
  | String c r =>
      if is_digit c then String c (replace_non_digits r)
      else replace_non_digits r
  end.

Fixpoint all_digits (s : string) : bool :=
  match s with
  | EmptyString => true
  | String c r => is_digit c && all_digits r
  end.

Fixpoint starts_with (p s : string) : bool :=
  match p, s with
  | EmptyString, _ => true
  | String a p', String b s' => Ascii.eqb a b && starts_with p' s'
  | String _ _, EmptyString => false
  end.

(** [s.includes(sub)] *)
Fixpoint includes (sub s : string) : bool :=
  starts_with sub s ||
  match s with
  | EmptyString => false
  | String _ r => includes sub r
  end.

End JS.

(* ------------------------------------------------------------------ *)
(** ** Data *)

(** Errors that travel through [throw]/[catch] and through
    [lastDisconnect.error]. *)
Inductive js_error : Type :=
  | Boom (statusCode : option Z) (message : string)
      (* @hapi/boom: [error.output.statusCode] *)
  | PlainError (message : string)
  | TypeError (message : string).

Definition error_message (e : js_error) : string :=
  match e with
  | Boom _ m | PlainError m | TypeError m => m
  end.

(** [DisconnectReason.loggedOut] of the socket library. *)
Definition loggedOut : Z := 401.

Inductive connection_state : Type := ConnConnecting | ConnOpen | ConnClose.

(** The argument of a ['connection.update'] event. *)
Record update : Type := mkUpdate {
  upd_connection : option connection_state;
  upd_lastDisconnect : option js_error;   (* lastDisconnect?.error *)
  upd_qr : option string
}.

(** The fields of the [WhatsAppService] instance ([sessionPath] is fixed
    at construction and never changes). *)
Record service : Type := mkService {
  socket : option nat;
  qr : option string;
  isConnected : bool;
  connectionAttempts : Z;
  maxReconnectAttempts : Z;
  baseRetryDelay : Z;
  lastConnectionAttempt : option Z;
  cooldownPeriod : Z
}.

(** What a [setTimeout] callback of the service does. *)
Inductive timer_action : Type :=
  | ExpireQR     (* () => { if (!this.isConnected) { this.qr = null; ... } } *)
  | Reconnect.   (* () => this.connect() *)

Record timer : Type := mkTimer {
  registeredAt : Z;
  delay : Z;
  action : timer_action
}.

(** [setTimeout] of Node takes 1 ms in place of a delay that is not
    between 1 and [2^31 - 1]. *)
Definition TIMEOUT_MAX : Z := 2147483647.

Definition timeout_after (d : Z) : Z :=
  if (1 <=? d) && (d <=? TIMEOUT_MAX) then d else 1.

(** The instant at which the timer expires. *)
Definition due (tm : timer) : Z := registeredAt tm + timeout_after (delay tm).

(** What is known of a socket made by [makeWASocket]: it was made, it
    reported ['open'], it reported ['close'], or the service called
    [end()] on it.  This is bookkeeping about the collaborator; no
    method of the service reads it. *)
Inductive handle_status : Type := Pending | Opened | Closed | Ended.

Definition alive (s : handle_status) : bool :=
  match s with
  | Pending | Opened => true
  | Closed | Ended => false
  end.

Inductive log_entry : Type :=
  | LogCooldownWait (waitTime : Z)
  | LogCooldownEndsAt (t : Z)
  | LogInitializing
  | LogInitFailed (e : js_error)
  | LogConnectionError (e : js_error)
  | LogQRReceived
  | LogQRExpired
  | LogConnectionClosed (e : option js_error) (shouldReconnect : bool)
  | LogReconnecting (delayMinutes attempt maxAttempts : Z)
  | LogMaxAttempts (cooldownMinutes : Z)
  | LogConnected
  | LogSending (to : string)
  | LogSent (to messageId : string)
  | LogSendFailed (e : js_error)
  | LogDisconnected
  | LogResetting
  | LogResetDone
  | LogForcing
  | LogForceInitiated
  | LogClearing
  | LogDeletedFile (file : string)
  | LogCleared
  | LogStartingFresh
  | LogClearFailed (e : js_error)
  | LogQRRenderFailed (e : js_error)
  | LogRouteMissingFields
  | LogRouteInvalidPhone (phoneNumber : string)
  | LogRouteSent (to messageId : string)
  | LogRouteSendFailed (message phoneNumber : string).

(** A value of a field of [req.body], as [express.json()] delivers it.
    Of a number only whether it is 0 counts here (a fraction reads as
    any other number that is not 0), and of an array or an object only
    the kind. *)
Inductive json : Type :=
  | JNull
  | JBool (b : bool)
  | JNumber (n : Z)
  | JString (s : string)
  | JArray
  | JObject.

Coercion JString : string >-> json.

(** A call of [socket.sendMessage(jid, { text })] that reached the
    socket library. *)
Record transport_call : Type := mkCall {
  call_handle : nat;
  call_jid : string;
  call_text : json
}.

Record world : Type := mkWorld {
  this : service;
  clock : Z;                        (* Date.now() *)
  timers : list timer;              (* pending setTimeout callbacks, oldest first *)
  handles : list handle_status;     (* sockets made so far; the index is the identity *)
  sent : list transport_call;       (* socket.sendMessage calls, oldest first *)
  sessionFiles : list string;       (* fs.readdir(sessionPath) *)
  makeSocketError : option js_error;(* Some e: building the socket in connect() throws e *)
  sendAnswer : js_error + string;   (* what socket.sendMessage answers: error or result.key.id *)
  fsError : option js_error;        (* Some e: fs.readdir throws e *)
  rmError : string -> option js_error;
                                    (* Some e: fs.rm of that file throws e *)
  qrRenderError : option js_error;  (* Some e: qrcode.toDataURL throws e *)
  log : list log_entry
}.

(* ------------------------------------------------------------------ *)
(** ** The monad of async methods *)

Inductive outcome (A : Type) : Type :=
  | Returned (a : A)
  | Threw (e : js_error).
Arguments Returned {A} a.
Arguments Threw {A} e.

Definition js (A : Type) : Type := world -> outcome A * world.

Definition ret {A} (a : A) : js A := fun w => (Returned a, w).

Definition throw {A} (e : js_error) : js A := fun w => (Threw e, w).

Definition bind {A B} (m : js A) (k : A -> js B) : js B :=
  fun w =>
    match m w with
    | (Returned a, w') => k a w'
    | (Threw e, w') => (Threw e, w')
    end.

(** [try { m } catch (error) { h error }] *)
Definition try_catch {A} (m : js A) (h : js_error -> js A) : js A :=
  fun w =>
    match m w with
    | (Returned a, w') => (Returned a, w')
    | (Threw e, w') => h e w'
    end.

Declare Scope js_scope.
Delimit Scope js_scope with js.
Notation "x <- m ;; k" := (bind m (fun x => k))
  (at level 100, m at level 99, k at level 200, right associativity) : js_scope.
Notation "m ;; k" := (bind m (fun _ => k))
  (at level 100, k at level 200, right associativity) : js_scope.
Open Scope js_scope.

Definition get : js world := fun w => (Returned w, w).
Definition put (w : world) : js unit := fun _ => (Returned tt, w).
Definition modify (f : world -> world) : js unit := fun w => (Returned tt, f w).
Definition when (b : bool) (m : js unit) : js unit := if b then m else ret tt.

Definition exec {A} (m : js A) (w : world) : world := snd (m w).
Definition result {A} (m : js A) (w : world) : outcome A := fst (m w).

(** Field updates. *)
Definition set_this (s : service) (w : world) : world :=
  mkWorld s (clock w) (timers w) (handles w) (sent w) (sessionFiles w)
          (makeSocketError w) (sendAnswer w) (fsError w) (rmError w)
          (qrRenderError w)
          (log w).
Definition set_clock (t : Z) (w : world) : world :=
  mkWorld (this w) t (timers w) (handles w) (sent w) (sessionFiles w)
          (makeSocketError w) (sendAnswer w) (fsError w) (rmError w)
          (qrRenderError w)
          (log w).
Definition set_timers (ts : list timer) (w : world) : world :=
  mkWorld (this w) (clock w) ts (handles w) (sent w) (sessionFiles w)
          (makeSocketError w) (sendAnswer w) (fsError w) (rmError w)
          (qrRenderError w)
          (log w).
Definition set_handles (hs : list handle_status) (w : world) : world :=
  mkWorld (this w) (clock w) (timers w) hs (sent w) (sessionFiles w)
          (makeSocketError w) (sendAnswer w) (fsError w) (rmError w)
          (qrRenderError w)
          (log w).
Definition set_sent (cs : list transport_call) (w : world) : world :=
  mkWorld (this w) (clock w) (timers w) (handles w) cs (sessionFiles w)
          (makeSocketError w) (sendAnswer w) (fsError w) (rmError w)
          (qrRenderError w)
          (log w).
Definition set_sessionFiles (fs : list string) (w : world) : world :=
  mkWorld (this w) (clock w) (timers w) (handles w) (sent w) fs
          (makeSocketError w) (sendAnswer w) (fsError w) (rmError w)
          (qrRenderError w)
          (log w).
Definition set_log (l : list log_entry) (w : world) : world :=
  mkWorld (this w) (clock w) (timers w) (handles w) (sent w) (sessionFiles w)
          (makeSocketError w) (sendAnswer w) (fsError w) (rmError w)
          (qrRenderError w) l.

Definition set_socket (v : option nat) (s : service) : service :=
  mkService v (qr s) (isConnected s) (connectionAttempts s)
            (maxReconnectAttempts s) (baseRetryDelay s)
            (lastConnectionAttempt s) (cooldownPeriod s).
Definition set_qr (v : option string) (s : service) : service :=
  mkService (socket s) v (isConnected s) (connectionAttempts s)
            (maxReconnectAttempts s) (baseRetryDelay s)
            (lastConnectionAttempt s) (cooldownPeriod s).
Definition set_isConnected (v : bool) (s : service) : service :=
  mkService (socket s) (qr s) v (connectionAttempts s)
            (maxReconnectAttempts s) (baseRetryDelay s)
            (lastConnectionAttempt s) (cooldownPeriod s).
Definition set_connectionAttempts (v : Z) (s : service) : service :=
  mkService (socket s) (qr s) (isConnected s) v
            (maxReconnectAttempts s) (baseRetryDelay s)
            (lastConnectionAttempt s) (cooldownPeriod s).
Definition set_lastConnectionAttempt (v : option Z) (s : service) : service :=
  mkService (socket s) (qr s) (isConnected s) (connectionAttempts s)
            (maxReconnectAttempts s) (baseRetryDelay s)
            v (cooldownPeriod s).

(** [this.field = v] *)
Definition assign (f : service -> service) : js unit :=
  modify (fun w => set_this (f (this w)) w).

(** [logger.info/warn/error(...)] *)
Definition logger (e : log_entry) : js unit :=
  modify (fun w => set_log (log w ++ [e]) w).

(** [Date.now()] *)
Definition Date_now : js Z := fun w => (Returned (clock w), w).

(** [setTimeout(callback, delay)] *)
Definition setTimeout (a : timer_action) (d : Z) : js unit :=
  modify (fun w => set_timers (timers w ++ [mkTimer (clock w) d a]) w).

(* ------------------------------------------------------------------ *)
(** ** The socket library, the file system and the renderer *)

(** [useMultiFileAuthState(this.sessionPath)], the import of the logger
    and [makeWASocket({...})]: a new socket, identified by its rank, or
    the error one of the three throws. *)
Definition makeWASocket : js nat :=
  fun w =>
    match makeSocketError w with
    | Some e => (Threw e, w)
    | None => (Returned (length (handles w)),
               set_handles (handles w ++ [Pending]) w)
    end.

(** [this.socket.sendMessage(jid, { text })] *)
Definition socket_sendMessage (jid : string) (text : json) : js string :=
  fun w =>
    match socket (this w) with
    | None =>
        (Threw (TypeError "Cannot read properties of null (reading 'sendMessage')"), w)
    | Some h =>
        let w' := set_sent (sent w ++ [mkCall h jid text]) w in
        match sendAnswer w with
        | inl e => (Threw e, w')
        | inr id => (Returned id, w')
        end
    end.

(** [fs.readdir(this.sessionPath)] *)
Definition fs_readdir : js (list string) :=
  fun w =>
    match fsError w with
    | Some e => (Threw e, w)
    | None => (Returned (sessionFiles w), w)
    end.

(** [fs.rm(path.join(this.sessionPath, file), { recursive: true, force: true })].
    [force] hides a file that is not there, and nothing else: a
    removal that is refused (EACCES, EPERM, EBUSY) throws and leaves the
    file. *)
Definition fs_rm (file : string) : js unit :=
  fun w =>
    match rmError w file with
    | Some e => (Threw e, w)
    | None =>
        (Returned tt,
         set_sessionFiles
           (List.filter (fun f => negb (String.eqb f file)) (sessionFiles w)) w)
    end.

(** The result of [qrcode.toDataURL(code)]. *)
Inductive qr_image : Type := DataURL (code : string).

Definition qrcode_toDataURL (code : string) : js qr_image :=
  fun w =>
    match qrRenderError w with
    | Some e => (Threw e, w)
    | None => (Returned (DataURL code), w)
    end.

(* ------------------------------------------------------------------ *)
(** ** class WhatsAppService *)

(** [constructor()], with the three numbers that [parseInt] reads from
    the environment (or their defaults). *)
Definition new_service (maxAttempts baseDelay cooldown : Z) : service :=
  {| socket := None;
     qr := None;
     isConnected := false;
     connectionAttempts := 0;
     maxReconnectAttempts := maxAttempts;
     baseRetryDelay := baseDelay;
     lastConnectionAttempt := None;
     cooldownPeriod := cooldown |}.

Definition get_this : js service := fun w => (Returned (this w), w).

Definition connect : js unit :=
  try_catch
    (h <- makeWASocket ;;
     (* the listeners are registered on [h] here: 'connection.update'
        is [emit] below; 'creds.update' belongs to the credential store
        and 'messages.upsert' only logs *)
     assign (set_socket (Some h)))
    (fun error =>
       logger (LogConnectionError error) ;;
       throw error).

Definition initialize : js unit :=
  try_catch
    (s <- get_this ;;
     now <- Date_now ;;
     let timeSinceLastAttempt :=
       now - default 0 (lastConnectionAttempt s) in
     if JS.truthy_num (lastConnectionAttempt s)
        && (timeSinceLastAttempt <? cooldownPeriod s)
     then
       let waitTime :=
         JS.ceil_div (cooldownPeriod s - timeSinceLastAttempt) 1000 in
       logger (LogCooldownWait waitTime) ;;
       logger (LogCooldownEndsAt
                 (default 0 (lastConnectionAttempt s) + cooldownPeriod s)) ;;
       ret tt
     else
       logger LogInitializing ;;
       now <- Date_now ;;
       assign (set_lastConnectionAttempt (Some now)) ;;
       connect)
    (fun error =>
       logger (LogInitFailed error) ;;
       throw error).

(** [(lastDisconnect?.error instanceof Boom)
      ? lastDisconnect.error?.output?.statusCode !== DisconnectReason.loggedOut
      : true] *)
Definition shouldReconnect (u : update) : bool :=
  match upd_lastDisconnect u with
  | Some (Boom (Some code) _) => negb (code =? loggedOut)
  | Some (Boom None _) => true
  | _ => true
  end.

Definition is_connection (c : connection_state) (u : update) : bool :=
  match upd_connection u, c with
  | Some ConnClose, ConnClose
  | Some ConnOpen, ConnOpen
  | Some ConnConnecting, ConnConnecting => true
  | _, _ => false
  end.

(** The rendering of the code on the terminal goes to the console only
    and is left out. *)
Definition handleConnectionUpdate (u : update) : js unit :=
  when (JS.truthy_str (upd_qr u))
    (assign (set_qr (upd_qr u)) ;;
     logger LogQRReceived) ;;
  when (is_connection ConnClose u)
    (assign (set_isConnected false) ;;
     setTimeout ExpireQR 120000 ;;
     logger (LogConnectionClosed (upd_lastDisconnect u) (shouldReconnect u)) ;;
     s <- get_this ;;
     if shouldReconnect u
        && (connectionAttempts s <? maxReconnectAttempts s)
     then
       assign (fun s => set_connectionAttempts (connectionAttempts s + 1) s) ;;
       s <- get_this ;;
       let delay := baseRetryDelay s * connectionAttempts s in
       let delayMinutes := JS.round_div delay 60000 in
       logger (LogReconnecting delayMinutes (connectionAttempts s)
                               (maxReconnectAttempts s)) ;;
       setTimeout Reconnect delay
     else if maxReconnectAttempts s <=? connectionAttempts s
     then
       logger (LogMaxAttempts (JS.round_div (cooldownPeriod s) 60000)) ;;
       now <- Date_now ;;
       assign (set_lastConnectionAttempt (Some now))
     else ret tt) ;;
  when (is_connection ConnOpen u)
    (assign (set_isConnected true) ;;
     assign (set_qr None) ;;
     assign (set_connectionAttempts 0) ;;
     logger LogConnected).

(** The updates a socket emits. *)
Definition qr_update (code : string) : update :=
  {| upd_connection := None; upd_lastDisconnect := None; upd_qr := Some code |}.
Definition open_update : update :=
  {| upd_connection := Some ConnOpen; upd_lastDisconnect := None; upd_qr := None |}.
Definition close_update (e : option js_error) : update :=
  {| upd_connection := Some ConnClose; upd_lastDisconnect := e; upd_qr := None |}.

(** The socket [h] was made and is neither closed nor ended. *)
Definition is_live (w : world) (h : nat) : bool :=
  match handles w !! h with
  | Some st => alive st
  | None => false
  end.

(** [h.end()], called with no argument.  The socket library closes a
    socket once.  On a socket that has not closed yet, [end] emits
    [{ connection: 'close', lastDisconnect: { error: undefined, date } }]
    to the listeners of ['connection.update'] before it returns, and
    drops the listeners afterwards: the listener that [connect]
    registered (lines 70-72, never removed by the service) runs
    [handleConnectionUpdate] inside the call, and to its end, since an
    update without [qr] meets no [await] in the handler.  On a socket
    that has closed already, [end] does nothing. *)
Definition socket_end (h : nat) : js unit :=
  w <- get ;;
  modify (fun w => set_handles (<[h := Ended]> (handles w)) w) ;;
  when (is_live w h) (handleConnectionUpdate (close_update None)).

Record send_result : Type := mkSendResult {
  success : bool;
  messageId : string;
  to : string
}.

Definition sendMessage (phoneNumber : string) (message : json)
  : js send_result :=
  s <- get_this ;;
  if negb (isConnected s)
  then throw (PlainError "WhatsApp is not connected. Please scan the QR code first.")
  else
    try_catch
      (let formattedNumber :=
         JS.replace_non_digits phoneNumber ++ "@s.whatsapp.net" in
       logger (LogSending formattedNumber) ;;
       id <- socket_sendMessage formattedNumber message ;;
       logger (LogSent formattedNumber id) ;;
       ret {| success := true; messageId := id; to := formattedNumber |})
      (fun error =>
         logger (LogSendFailed error) ;;
         throw error).

Definition getQRCode : js (option qr_image) :=
  s <- get_this ;;
  if negb (JS.truthy_str (qr s))
  then ret None
  else
    try_catch
      (qrDataURL <- qrcode_toDataURL (default "" (qr s)) ;;
       ret (Some qrDataURL))
      (fun error =>
         logger (LogQRRenderFailed error) ;;
         throw error).

Record status : Type := mkStatus {
  st_isConnected : bool;
  st_hasQR : bool;
  st_connectionAttempts : Z
}.

Definition getStatus (w : world) : status :=
  {| st_isConnected := isConnected (this w);
     st_hasQR := JS.truthy_str (qr (this w));
     st_connectionAttempts := connectionAttempts (this w) |}.

Definition disconnect : js unit :=
  s <- get_this ;;
  match socket s with
  | Some h =>
      socket_end h ;;
      assign (set_socket None) ;;
      assign (set_isConnected false) ;;
      assign (set_qr None) ;;
      logger LogDisconnected
  | None => ret tt
  end.

Definition resetConnection : js unit :=
  logger LogResetting ;;
  assign (set_connectionAttempts 0) ;;
  assign (set_lastConnectionAttempt None) ;;
  assign (set_qr None) ;;
  assign (set_isConnected false) ;;
  s <- get_this ;;
  match socket s with
  | Some h =>
      socket_end h ;;
      assign (set_socket None)
  | None => ret tt
  end ;;
  logger LogResetDone.

Definition forceConnect : js unit :=
  logger LogForcing ;;
  resetConnection ;;
  connect ;;
  logger LogForceInitiated.

Fixpoint remove_files (files : list string) : js unit :=
  match files with
  | [] => ret tt
  | file :: rest =>
      when (negb (String.eqb file ".gitkeep"))
        (fs_rm file ;;
         logger (LogDeletedFile file)) ;;
      remove_files rest
  end.

Record clear_result : Type := mkClearResult {
  clear_success : bool;
  deletedFiles : list string
}.

Definition clearSession : js clear_result :=
  logger LogClearing ;;
  disconnect ;;
  assign (set_connectionAttempts 0) ;;
  assign (set_lastConnectionAttempt None) ;;
  assign (set_qr None) ;;
  assign (set_isConnected false) ;;
  try_catch
    (files <- fs_readdir ;;
     remove_files files ;;
     logger LogCleared ;;
     logger LogStartingFresh ;;
     connect ;;
     ret {| clear_success := true;
            deletedFiles :=
              List.filter (fun f => negb (String.eqb f ".gitkeep")) files |})
    (fun error =>
       logger (LogClearFailed error) ;;
       throw error).

Record detailed_status : Type := mkDetailed {
  ds_isConnected : bool;
  ds_hasQR : bool;
  ds_connectionAttempts : Z;
  ds_maxReconnectAttempts : Z;
  ds_inCooldown : bool;
  ds_cooldownRemaining : Z;          (* seconds *)
  ds_cooldownEndsAt : option Z;      (* the instant that toISOString() prints *)
  ds_hasSocket : bool
}.

Definition getDetailedStatus (w : world) : detailed_status :=
  let s := this w in
  let now := clock w in
  let cooldownRemaining :=
    if JS.truthy_num (lastConnectionAttempt s)
    then Z.max 0 (cooldownPeriod s - (now - default 0 (lastConnectionAttempt s)))
    else 0 in
  {| ds_isConnected := isConnected s;
     ds_hasQR := JS.truthy_str (qr s);
     ds_connectionAttempts := connectionAttempts s;
     ds_maxReconnectAttempts := maxReconnectAttempts s;
     ds_inCooldown := 0 <? cooldownRemaining;
     ds_cooldownRemaining := JS.ceil_div cooldownRemaining 1000;
     ds_cooldownEndsAt :=
       if JS.truthy_num (lastConnectionAttempt s)
       then Some (default 0 (lastConnectionAttempt s) + cooldownPeriod s)
       else None;
     ds_hasSocket := match socket s with Some _ => true | None => false end |}.

(* ------------------------------------------------------------------ *)
(** ** Calls in flight

    An [async] method hands the thread back at every [await] that waits
    for I/O, and whatever is ready by then runs first: another request,
    a socket event, a timer.  The methods above are written as one step
    each, as they run when nothing comes in between.  The waits after
    which a method still reads or writes the service are
    - in [connect()]: [await useMultiFileAuthState(...)] and
      [await import('pino')], both before the socket is made, so that
      the whole of [connect] above runs after them;
    - in [clearSession()]: [await fs.readdir(...)], every
      [await fs.rm(...)], and the [connect()] at its end.
    After its wait [sendMessage] only logs and returns, and so does
    [getQRCode].  An [await] on [resetConnection()] or [disconnect()]
    waits for nothing, since neither has a wait of its own.

    Below, [..._start] is a call up to its first wait, and [resume] is a
    call from the wait it is at to the next one, or to its end. *)

Inductive waiting : Type :=
  | InitializeAtConnect      (* initialize(), inside connect() *)
  | ForceConnectAtConnect    (* forceConnect(), inside connect() *)
  | TimerAtConnect           (* () => this.connect(), inside connect() *)
  | ClearSessionAtReaddir    (* clearSession(), at fs.readdir *)
  | ClearSessionAtRm (files : list string) (file : string) (rest : list string)
                             (* clearSession(), at fs.rm of [file] *)
  | ClearSessionAtConnect (files : list string).
                             (* clearSession(), inside connect() *)

(** [None]: the call has returned (the cooldown). *)
Definition initialize_start : js (option waiting) :=
  s <- get_this ;;
  now <- Date_now ;;
  let timeSinceLastAttempt :=
    now - default 0 (lastConnectionAttempt s) in
  if JS.truthy_num (lastConnectionAttempt s)
     && (timeSinceLastAttempt <? cooldownPeriod s)
  then
    let waitTime :=
      JS.ceil_div (cooldownPeriod s - timeSinceLastAttempt) 1000 in
    logger (LogCooldownWait waitTime) ;;
    logger (LogCooldownEndsAt
              (default 0 (lastConnectionAttempt s) + cooldownPeriod s)) ;;
    ret None
  else
    logger LogInitializing ;;
    now <- Date_now ;;
    assign (set_lastConnectionAttempt (Some now)) ;;
    ret (Some InitializeAtConnect).

Definition forceConnect_start : js waiting :=
  logger LogForcing ;;
  resetConnection ;;
  ret ForceConnectAtConnect.

Definition clearSession_start : js waiting :=
  logger LogClearing ;;
  disconnect ;;
  assign (set_connectionAttempts 0) ;;
  assign (set_lastConnectionAttempt None) ;;
  assign (set_qr None) ;;
  assign (set_isConnected false) ;;
  ret ClearSessionAtReaddir.

(** The [catch] of [clearSession()]. *)
Definition clear_failed {A} (m : js A) : js A :=
  try_catch m
    (fun error =>
       logger (LogClearFailed error) ;;
       throw error).

(** The loop of [clearSession()] from the file it has come to, up to
    the next [fs.rm] or, past the last file, up to [connect()]. *)
Fixpoint clear_loop (files rest : list string)
  : js (waiting + option clear_result) :=
  match rest with
  | [] =>
      logger LogCleared ;;
      logger LogStartingFresh ;;
      ret (inl (ClearSessionAtConnect files))
  | file :: rest' =>
      if negb (String.eqb file ".gitkeep")
      then ret (inl (ClearSessionAtRm files file rest'))
      else clear_loop files rest'
  end.

(** The call goes on.  [inl]: it waits again; [inr]: it has returned
    (a value, for [clearSession()]); [Threw]: its promise is rejected. *)
Definition resume (p : waiting) : js (waiting + option clear_result) :=
  match p with
  | InitializeAtConnect =>
      try_catch
        (connect ;;
         ret (inr None))
        (fun error =>
           logger (LogInitFailed error) ;;
           throw error)
  | ForceConnectAtConnect =>
      connect ;;
      logger LogForceInitiated ;;
      ret (inr None)
  | TimerAtConnect =>
      connect ;;
      ret (inr None)
  | ClearSessionAtReaddir =>
      clear_failed
        (files <- fs_readdir ;;
         clear_loop files files)
  | ClearSessionAtRm files file rest =>
      clear_failed
        (fs_rm file ;;
         logger (LogDeletedFile file) ;;
         clear_loop files rest)
  | ClearSessionAtConnect files =>
      clear_failed
        (connect ;;
         ret (inr (Some {| clear_success := true;
                           deletedFiles :=
                             List.filter
                               (fun f => negb (String.eqb f ".gitkeep"))
                               files |})))
  end.

(** The call goes on to its end with nothing in between; [fuel] bounds
    the number of waits still to come. *)
Fixpoint finish (fuel : nat) (p : waiting) : js (option clear_result) :=
  r <- resume p ;;
  match r with
  | inr v => ret v
  | inl q =>
      match fuel with
      | O => ret None
      | S fuel' => finish fuel' q
      end
  end.

(* ------------------------------------------------------------------ *)
(** ** The event loop: timers and socket events *)

(** The body of each [setTimeout] callback.  [() => this.connect()]
    drops the promise, so a rejection reaches nobody. *)
Definition run_callback (a : timer_action) : js unit :=
  match a with
  | ExpireQR =>
      s <- get_this ;;
      when (negb (isConnected s))
        (assign (set_qr None) ;;
         logger LogQRExpired)
  | Reconnect =>
      try_catch connect (fun _ => ret tt)
  end.

(** The pending timer that expires first (the oldest one among equals),
    and the queue without it. *)
Fixpoint next_timer (ts : list timer) : option (timer * list timer) :=
  match ts with
  | [] => None
  | x :: r =>
      match next_timer r with
      | None => Some (x, [])
      | Some (m, r') =>
          if due x <=? due m then Some (x, r) else Some (m, x :: r')
      end
  end.

(** Fire, in order, the timers that are due at [t].  The clock shows the
    expiry time of a timer while its callback runs (or the present, when
    the timer was already late). *)
Fixpoint run_timers (fuel : nat) (t : Z) (w : world) : world :=
  match fuel with
  | O => w
  | S fuel' =>
      match next_timer (timers w) with
      | Some (tm, rest) =>
          if due tm <=? t
          then
            let w1 := set_clock (Z.max (clock w) (due tm)) (set_timers rest w) in
            run_timers fuel' t (exec (run_callback (action tm)) w1)
          else w
      | None => w
      end
  end.

(** Time passes until the clock shows [t].  No callback registers a
    timer, so one turn for each pending timer fires all that are due
    ([run_timers_timers] below). *)
Definition advance (t : Z) (w : world) : world :=
  let w' := run_timers (length (timers w)) t w in
  set_clock (Z.max (clock w') t) w'.

(** The record kept of a socket follows what it reports. *)
Definition note_report (h : nat) (u : update) (hs : list handle_status)
  : list handle_status :=
  match hs !! h, upd_connection u with
  | Some st, Some ConnOpen => if alive st then <[h := Opened]> hs else hs
  | Some st, Some ConnClose => if alive st then <[h := Closed]> hs else hs
  | _, _ => hs
  end.

(** The socket [h] emits ['connection.update'].  Every socket made by
    [connect] carries the listener
    [async (update) => { await this.handleConnectionUpdate(update) }],
    and no listener is ever removed. *)
Definition emit (h : nat) (u : update) : js unit :=
  w <- get ;;
  if bool_decide (h < length (handles w))%nat
  then
    modify (fun w => set_handles (note_report h u (handles w)) w) ;;
    handleConnectionUpdate u
  else ret tt.

(* ------------------------------------------------------------------ *)
(** ** POST /message *)

Inductive response : Type :=
  | BadRequest (message : string)           (* 400 *)
  | Created (data : send_result)            (* 201 *)
  | ServiceUnavailable                      (* 503 *)
  | InternalServerError (details : string). (* 500 *)

(** [/^\+?[1-9]\d{1,14}$/.test(s)] *)
Definition phoneRegex_test (s : string) : bool :=
  let s1 :=
    match s with
    | String "+" r => r
    | _ => s
    end in
  match s1 with
  | String c r =>
      JS.is_1_9 c
      && JS.all_digits r
      && (1 <=? String.length r)%nat && (String.length r <=? 14)%nat
  | EmptyString => false
  end.

(** [if (v)] for a field of the body; [None] is [undefined], a field
    that is not there. *)
Definition truthy (v : option json) : bool :=
  match v with
  | None | Some JNull => false
  | Some (JBool b) => b
  | Some (JNumber n) => negb (n =? 0)
  | Some (JString s) => negb (String.eqb s "")
  | Some JArray | Some JObject => true
  end.

(** The handler after [authMiddleware] and [rateLimiter], on the two
    fields of [req.body], whatever they are.  The two tests come before
    the [try]: [phoneNumber.replace] on a value that is not a string
    throws there, and the handler ends without an answer of its own
    ([Threw]: the promise of the handler is rejected). *)
Definition post_message_handler (phoneNumber message : option json)
  : js response :=
  if negb (truthy phoneNumber) || negb (truthy message)
  then
    logger LogRouteMissingFields ;;
    ret (BadRequest "Both phoneNumber and message are required")
  else
    match phoneNumber with
    | Some (JString phoneNumber) =>
        let message := default JNull message in
        if negb (phoneRegex_test (JS.replace_non_digits phoneNumber))
        then
          logger (LogRouteInvalidPhone phoneNumber) ;;
          ret (BadRequest
                 "Invalid phone number format. Use international format (e.g., +1234567890)")
        else
          try_catch
            (result <- sendMessage phoneNumber message ;;
             logger (LogRouteSent phoneNumber (messageId result)) ;;
             ret (Created result))
            (fun error =>
               logger (LogRouteSendFailed (error_message error) phoneNumber) ;;
               if JS.includes "not connected" (error_message error)
               then ret ServiceUnavailable
               else ret (InternalServerError (error_message error)))
    | _ => throw (TypeError "phoneNumber.replace is not a function")
    end.

(** The handler on a body whose two fields are strings or absent. *)
Definition post_message (phoneNumber message : option string) : js response :=
  post_message_handler (option_map JString phoneNumber)
                       (option_map JString message).

(** What the routes and the middleware write to the logger themselves,
    kept apart from the entries of the service: each handler below
    returns its own entries, in order, beside its answer. *)
Inductive api_entry : Type :=
  | ApiWebhookSent (to messageId : string)
  | ApiWebhookFailed (error phoneNumber : string)
  | ApiQRFailed (error : string)
  | ApiNoToken
  | ApiInvalidToken (shown : string).

Inductive webhook_response : Type :=
  | WebhookUnauthorized                          (* 401 *)
  | WebhookBadRequest                            (* 400 *)
  | WebhookOk (data : send_result)               (* 200 *)
  | WebhookInternalServerError (details : string). (* 500 *)

(** [a || b] on values that are strings or absent. *)
Definition js_or (a b : option string) : option string :=
  if JS.truthy_str a then a else b.

(** [POST /webhook/notify].  [envSecret] is [process.env.WEBHOOK_SECRET]
    and [apiToken] is [config.auth.apiToken]. *)
Definition webhook_notify (envSecret : option string) (apiToken : string)
    (phoneNumber message secret : option string)
  : js (webhook_response * list api_entry) :=
  let webhookSecret := js_or envSecret (Some apiToken) in
  if negb (bool_decide (secret = webhookSecret))
  then ret (WebhookUnauthorized, [])
  else if negb (JS.truthy_str phoneNumber) || negb (JS.truthy_str message)
  then ret (WebhookBadRequest, [])
  else
    let phoneNumber := default "" phoneNumber in
    let message := default "" message in
    try_catch
      (result <- sendMessage phoneNumber message ;;
       ret (WebhookOk result,
            [ApiWebhookSent phoneNumber (messageId result)]))
      (fun error =>
         ret (WebhookInternalServerError (error_message error),
              [ApiWebhookFailed (error_message error) phoneNumber])).

(** [GET /qr]: the page is the template with the data URL as the source
    of its image. *)
Inductive qr_response : Type :=
  | QrNotFound                      (* 404 *)
  | QrPage (src : qr_image)         (* 200, text/html *)
  | QrInternalServerError.          (* 500 *)

Definition get_qr : js (qr_response * list api_entry) :=
  try_catch
    (qrDataURL <- getQRCode ;;
     match qrDataURL with
     | None => ret (QrNotFound, [])
     | Some url => ret (QrPage url, [])
     end)
    (fun error =>
       ret (QrInternalServerError, [ApiQRFailed (error_message error)])).

(** [GET /logs]: [parseInt(req.query.count) || 50], from what [parseInt]
    gave ([None] is [NaN]). *)
Definition logs_count (parsed : option Z) : Z :=
  match parsed with
  | Some n => if n =? 0 then 50 else n
  | None => 50
  end.

(* ------------------------------------------------------------------ *)
(** ** middleware/auth.js *)

(** [s.slice(n)] *)
Fixpoint drop_chars (n : nat) (s : string) : string :=
  match n, s with
  | O, _ => s
  | S n', String _ r => drop_chars n' r
  | S _, EmptyString => EmptyString
  end.

(** [s.replace(pat, rep)] with a string pattern: the first occurrence
    only.  ([rep] holds no [$], so it is inserted as it is.) *)
Fixpoint replace_first (pat rep s : string) : string :=
  if JS.starts_with pat s
  then rep ++ drop_chars (String.length pat) s
  else
    match s with
    | EmptyString => EmptyString
    | String c r => String c (replace_first pat rep r)
    end.

(** The three places a token is read from. *)
Record request : Type := mkRequest {
  header_authorization : option string;   (* req.headers['authorization'] *)
  header_x_api_token : option string;     (* req.headers['x-api-token'] *)
  query_token : option string             (* req.query.token *)
}.

(** [req.headers['authorization']?.replace('Bearer ', '')
      || req.headers['x-api-token'] || req.query.token] *)
Definition request_token (req : request) : option string :=
  js_or (js_or (option_map (replace_first "Bearer " "")
                           (header_authorization req))
               (header_x_api_token req))
        (query_token req).

Inductive auth_outcome : Type :=
  | AuthNext                       (* next() *)
  | AuthUnauthorized (message : string). (* 401 *)

Definition authMiddleware (apiToken : string) (req : request)
  : auth_outcome * list api_entry :=
  let token := request_token req in
  if negb (JS.truthy_str token)
  then (AuthUnauthorized "API token is required", [ApiNoToken])
  else
    let token := default "" token in
    if negb (String.eqb token apiToken)
    then (AuthUnauthorized "Invalid API token",
          [ApiInvalidToken (substring 0 8 token ++ "...")])
    else (AuthNext, []).

(* ------------------------------------------------------------------ *)
(** ** config/config.js: the API token *)

Definition newline : string := String (ascii_of_nat 10) EmptyString.

(** The file written when there is no [.env]. *)
Definition defaultEnv (apiToken : string) : string :=
  "# Server Configuration" ++ newline ++
  "PORT=3000" ++ newline ++
  "NODE_ENV=production" ++ newline ++ newline ++
  "# API Authentication (Auto-generated - keep this secret!)" ++ newline ++
  "API_TOKEN=" ++ apiToken ++ newline ++ newline ++
  "# WhatsApp Configuration" ++ newline ++
  "SESSION_FOLDER=./sessions" ++ newline ++ newline ++
  "# Rate Limiting" ++ newline ++
  "RATE_LIMIT_WINDOW_MS=1000" ++ newline ++
  "RATE_LIMIT_MAX_REQUESTS=1" ++ newline ++ newline ++
  "# Logging" ++ newline ++
  "LOG_LEVEL=info" ++ newline.

(** The start of the module: [envToken] is [process.env.API_TOKEN] after
    [dotenv.config()], [uuid] is what [uuidv4()] gives, [envFile] is the
    content of [.env] when the file exists.  The result is
    [config.auth.apiToken] and the file afterwards. *)
Definition load_api_token (envToken : option string) (uuid : string)
    (envFile : option string) : string * option string :=
  if negb (JS.truthy_str envToken)
  then
    match envFile with
    | Some envContent =>
        if negb (JS.includes "API_TOKEN=" envContent)
        then (uuid,
              Some (envContent ++ newline ++ "# Generated API Token" ++ newline
                    ++ "API_TOKEN=" ++ uuid ++ newline))
        else (uuid, Some envContent)
    | None => (uuid, Some (defaultEnv uuid))
    end
  else (default "" envToken, envFile).

(* ------------------------------------------------------------------ *)
(** ** utils/logManager.js *)

Section LogManager.

(** The entries; a frame written to a client is
    [data: ${JSON.stringify(log)}\n\n], kept here as the entry. *)
Variable L : Type.

(** [clients] is the [Set] of response objects, in the order of
    insertion and without repetition; [written] is every frame a client
    took, oldest first. *)
Record log_manager : Type := mkLogManager {
  clients : list nat;
  logBuffer : list L;
  maxBufferSize : nat;
  written : list (nat * L)
}.

Definition new_log_manager : log_manager :=
  {| clients := []; logBuffer := []; maxBufferSize := 100; written := [] |}.

(** [set.add(res)] *)
Definition set_add (res : nat) (s : list nat) : list nat :=
  if existsb (Nat.eqb res) s then s else (s ++ [res])%list.

(** [set.delete(res)] *)
Definition set_delete (res : nat) (s : list nat) : list nat :=
  List.filter (fun c => negb (Nat.eqb c res)) s.

(** [addClient(res)]; [writable c] tells whether [c.write] returns
    rather than throws. *)
Definition addClient (writable : nat -> bool) (res : nat) (m : log_manager)
  : log_manager :=
  {| clients := set_add res (clients m);
     logBuffer := logBuffer m;
     maxBufferSize := maxBufferSize m;
     written :=
       fold_left
         (fun out entry =>
            if writable res then (out ++ [(res, entry)])%list else out)
         (logBuffer m) (written m) |}.

Definition removeClient (res : nat) (m : log_manager) : log_manager :=
  {| clients := set_delete res (clients m);
     logBuffer := logBuffer m;
     maxBufferSize := maxBufferSize m;
     written := written m |}.

(** [broadcast(log)] *)
Definition broadcast (writable : nat -> bool) (entry : L) (m : log_manager)
  : log_manager :=
  let pushed := (logBuffer m ++ [entry])%list in
  let buffer :=
    if (maxBufferSize m <? length pushed)%nat then tl pushed else pushed in
  let sent_to :=
    fold_left
      (fun st client =>
         if writable client
         then (fst st, (snd st ++ [(client, entry)])%list)
         else (set_delete client (fst st), snd st))
      (clients m) (clients m, written m) in
  {| clients := fst sent_to;
     logBuffer := buffer;
     maxBufferSize := maxBufferSize m;
     written := snd sent_to |}.

Definition getBufferedLogs (m : log_manager) : list L := logBuffer m.

(** What the client [res] has received. *)
Definition received (res : nat) (m : log_manager) : list L :=
  map snd (List.filter (fun f => Nat.eqb (fst f) res) (written m)).

(** A run of broadcasts, each with the clients that can be written to
    at that moment. *)
Definition broadcast_all (entries : list ((nat -> bool) * L)) (m : log_manager)
  : log_manager :=
  fold_left (fun m e => broadcast (fst e) (snd e) m) entries m.

End LogManager.

Arguments clients {L} _.
Arguments logBuffer {L} _.
Arguments maxBufferSize {L} _.
Arguments written {L} _.
Arguments new_log_manager {L}.
Arguments addClient {L} _ _ _.
Arguments removeClient {L} _ _.
Arguments broadcast {L} _ _ _.
Arguments getBufferedLogs {L} _.
Arguments received {L} _ _.
Arguments broadcast_all {L} _ _.

Section RecentLogs.

(** [JSON.parse] ([None] when it throws) and [String.prototype.trim]. *)
Variable J : Type.
Variable JSON_parse : string -> option J.
Variable trim : string -> string.

(** [s.split(sep)] for a separator of one character. *)
Fixpoint split_on (sep : ascii) (s : string) : list string :=
  match s with
  | EmptyString => [EmptyString]
  | String c r =>
      if Ascii.eqb c sep then EmptyString :: split_on sep r
      else
        match split_on sep r with
        | x :: xs => String c x :: xs
        | [] => [String c EmptyString]
        end
  end.

(** [l.slice(start)] *)
Definition slice_from {A} (start : Z) (l : list A) : list A :=
  let len := Z.of_nat (length l) in
  let k := if start <? 0 then Z.max (len + start) 0 else Z.min start len in
  skipn (Z.to_nat k) l.

Inductive recent_log : Type :=
  | Parsed (entry : J)
  | Unparsed (message : string) (timestamp : Z).
      (* { level: 'info', message: line, timestamp: new Date().toISOString() } *)

(** The lines of [combined.log] that are kept. *)
Definition log_lines (data : string) : list string :=
  List.filter (fun line => negb (String.eqb line ""))
              (split_on (ascii_of_nat 10) (trim data)).

(** [getRecentLogs(count)]; [file] is what [readFile] gives ([None] when
    it throws) and [now] the clock. *)
Definition getRecentLogs (file : option string) (now : Z) (count : Z)
  : list recent_log :=
  match file with
  | Some data =>
      let lines := log_lines data in
      let recentLines := slice_from (- count) lines in
      map (fun line =>
             match JSON_parse line with
             | Some entry => Parsed entry
             | None => Unparsed line now
             end)
          recentLines
  | None => []
  end.

End RecentLogs.

Arguments recent_log : clear implicits.
Arguments Parsed {J} _.
Arguments Unparsed {J} _ _.

(** [GET /logs]: [getRecentLogs] never throws, so the answer is always
    the list. *)
Definition get_logs {J} (JSON_parse : string -> option J)
    (trim : string -> string) (file : option string) (now : Z)
    (parsed : option Z) : list (recent_log J) :=
  getRecentLogs J JSON_parse trim file now (logs_count parsed).

(* ------------------------------------------------------------------ *)
(** ** Runs of the process *)

Inductive input : Type :=
  | Initialize
  | ResetConnection
  | Disconnect
  | ForceConnect
  | ClearSession
  | PostMessage (phoneNumber message : option string)
  | Emit (h : nat) (u : update)
  | Wait (t : Z).

Definition step (i : input) (w : world) : world :=
  match i with
  | Initialize => exec initialize w
  | ResetConnection => exec resetConnection w
  | Disconnect => exec disconnect w
  | ForceConnect => exec forceConnect w
  | ClearSession => exec clearSession w
  | PostMessage p m => exec (post_message p m) w
  | Emit h u => exec (emit h u) w
  | Wait t => advance t w
  end.

Definition run (trace : list input) (w : world) : world :=
  fold_left (fun w i => step i w) trace w.

(** The process as [index.js] starts it at the instant [t0], with the
    defaults of the constructor (2 attempts, 1 minute, 5 minutes) and a
    socket library that answers. *)
Definition boot (t0 : Z) : world :=
  {| this := new_service 2 60000 300000;
     clock := t0;
     timers := [];
     handles := [];
     sent := [];
     sessionFiles := [".gitkeep"];
     makeSocketError := None;
     sendAnswer := inr "3EB0";
     fsError := None;
     rmError := fun _ => None;
     qrRenderError := None;
     log := [] |}.


(* ------------------------------------------------------------------ *)
(** ** Vocabulary of the statements *)

(** The timers that run a given callback. *)
Definition is_action (a : timer_action) (tm : timer) : bool :=
  match action tm, a with
  | ExpireQR, ExpireQR | Reconnect, Reconnect => true
  | _, _ => false
  end.

Definition count_action (a : timer_action) (ts : list timer) : nat :=
  length (List.filter (is_action a) ts).

Arguments count_action : simpl never.

(** The timer expires after the instant [t]. *)
Definition not_due (t : Z) (tm : timer) : bool := t <? due tm.

(** One turn of the loop of [run_timers]. *)
Definition fire (tm : timer) (rest : list timer) (w : world) : world :=
  exec (run_callback (action tm))
       (set_clock (Z.max (clock w) (due tm)) (set_timers rest w)).

(** The test [initialize()] makes before it starts anything. *)
Definition in_cooldown (w : world) : bool :=
  JS.truthy_num (lastConnectionAttempt (this w))
  && (clock w - default 0 (lastConnectionAttempt (this w))
      <? cooldownPeriod (this w)).

(** The part of the process that no timer callback writes. *)
Definition steady (w w' : world) : Prop :=
  isConnected (this w') = isConnected (this w) /\
  connectionAttempts (this w') = connectionAttempts (this w) /\
  maxReconnectAttempts (this w') = maxReconnectAttempts (this w) /\
  baseRetryDelay (this w') = baseRetryDelay (this w) /\
  lastConnectionAttempt (this w') = lastConnectionAttempt (this w) /\
  cooldownPeriod (this w') = cooldownPeriod (this w) /\
  makeSocketError w' = makeSocketError w /\
  qrRenderError w' = qrRenderError w /\
  sent w' = sent w.

(** The sockets after [this.socket.end()], when a socket is stored. *)
Definition end_stored (w : world) : list handle_status :=
  match socket (this w) with
  | Some h => <[h := Ended]> (handles w)
  | None => handles w
  end.

(** A socket is stored and it has not closed. *)
Definition stored_live (w : world) : bool :=
  match socket (this w) with
  | Some h => is_live w h
  | None => false
  end.

(** The timers that [this.socket.end()] registers, through the handler,
    when the count of attempts reads [attempts] at that moment: none
    unless the stored socket had not closed. *)
Definition end_timers (attempts : Z) (w : world) : list timer :=
  if stored_live w
  then mkTimer (clock w) 120000 ExpireQR ::
       (if attempts <? maxReconnectAttempts (this w)
        then [mkTimer (clock w) (baseRetryDelay (this w) * (attempts + 1))
                      Reconnect]
        else [])
  else [].

(** The two counters after [this.socket.end()], which read [attempts]
    and [last] before it. *)
Definition end_attempts (attempts : Z) (w : world) : Z :=
  if stored_live w && (attempts <? maxReconnectAttempts (this w))
  then attempts + 1 else attempts.

Definition end_lastAttempt (attempts : Z) (last : option Z) (w : world)
  : option Z :=
  if stored_live w && negb (attempts <? maxReconnectAttempts (this w))
  then Some (clock w) else last.

(** The first file of a listing, [.gitkeep] apart, that [fs.rm]
    refuses to remove, with the error. *)
Fixpoint first_refused (rm : string -> option js_error) (files : list string)
  : option (string * js_error) :=
  match files with
  | [] => None
  | f :: rest =>
      if String.eqb f ".gitkeep" then first_refused rm rest
      else
        match rm f with
        | Some e => Some (f, e)
        | None => first_refused rm rest
        end
  end.

(** The files of the listing, [.gitkeep] apart, that come before it
    (all of them when no removal is refused). *)
Fixpoint removed_before (rm : string -> option js_error) (files : list string)
  : list string :=
  match files with
  | [] => []
  | f :: rest =>
      if String.eqb f ".gitkeep" then removed_before rm rest
      else
        match rm f with
        | Some _ => []
        | None => f :: removed_before rm rest
        end
  end.

(** The end of [clearSession()], once the loop is over. *)
Definition clear_tail (files : list string) : js (option clear_result) :=
  logger LogCleared ;;
  logger LogStartingFresh ;;
  connect ;;
  ret (Some {| clear_success := true;
               deletedFiles :=
                 List.filter (fun f => negb (String.eqb f ".gitkeep")) files |}).

Definition finish_from (fuel : nat) (r : waiting + option clear_result)
  : js (option clear_result) :=
  match r with
  | inr v => ret v
  | inl q => finish fuel q
  end.

(** Time passing and socket events other than ['open']. *)
Definition unattended (i : input) : bool :=
  match i with
  | Wait _ => true
  | Emit _ u => negb (is_connection ConnOpen u)
  | _ => false
  end.



(** The count of attempts is between 0 and the ceiling. *)
Definition attempts_in_range (w : world) : Prop :=
  0 <= connectionAttempts (this w) <= maxReconnectAttempts (this w).

(** The three numbers read at construction are the same. *)
Definition same_config (w w' : world) : Prop :=
  maxReconnectAttempts (this w') = maxReconnectAttempts (this w) /\
  baseRetryDelay (this w') = baseRetryDelay (this w) /\
  cooldownPeriod (this w') = cooldownPeriod (this w).

(** A ['close'] update that is not a logout, from one of the first
    [n] sockets. *)
Definition retrying_close (n : nat) (i : input) : bool :=
  match i with
  | Emit h u => (h <? n)%nat && is_connection ConnClose u && shouldReconnect u
  | _ => false
  end.

Ltac js_unfold :=
  cbv [exec result bind ret throw try_catch when assign logger modify get put
       get_this Date_now setTimeout].


(* ------------------------------------------------------------------ *)
(** ** The dispatcher: [POST /message] and [sendMessage] *)

Definition is_bad_request (o : outcome response) : bool :=
  match o with
  | Returned (BadRequest _) => true
  | _ => false
  end.

(** Both fields present and the digits of the number accepted by the
    regular expression: the two tests the handler makes before it calls
    [sendMessage]. *)
Definition passes_validation (phoneNumber message : option string) : bool :=
  JS.truthy_str phoneNumber && JS.truthy_str message
  && phoneRegex_test (JS.replace_non_digits (default "" phoneNumber)).

(** The same two tests on any body. *)
Definition passes_validation_any (phoneNumber message : option json) : bool :=
  truthy phoneNumber && truthy message
  && match phoneNumber with
     | Some (JString p) => phoneRegex_test (JS.replace_non_digits p)
     | _ => false
     end.

(** A value that is there, reads as true, and is not a string. *)
Definition not_a_string (v : option json) : bool :=
  truthy v
  && match v with
     | Some (JString _) => false
     | _ => true
     end.


Lemma phoneRegex_needs_a_digit (d : string) :
  phoneRegex_test (JS.replace_non_digits d) = true -> d <> "".
Proof. intros H ->. cbn in H. discriminate. Qed.

Lemma truthy_str_Some (d : string) :
  JS.truthy_str (Some d) = negb (String.eqb d "").
Proof. reflexivity. Qed.

Lemma truthy_of_regex (d : string) :
  phoneRegex_test (JS.replace_non_digits d) = true ->
  JS.truthy_str (Some d) = true.
Proof.
  intros H. apply phoneRegex_needs_a_digit in H.
  cbn. destruct (String.eqb_spec d ""); [contradiction | reflexivity].
Qed.

(** The handler on string fields, written out. *)
Lemma post_message_strings (p m : option string) :
  post_message p m =
  if negb (JS.truthy_str p) || negb (JS.truthy_str m)
  then
    logger LogRouteMissingFields ;;
    ret (BadRequest "Both phoneNumber and message are required")
  else
    let phoneNumber := default "" p in
    let message := default "" m in
    if negb (phoneRegex_test (JS.replace_non_digits phoneNumber))
    then
      logger (LogRouteInvalidPhone phoneNumber) ;;
      ret (BadRequest
             "Invalid phone number format. Use international format (e.g., +1234567890)")
    else
      try_catch
        (result <- sendMessage phoneNumber message ;;
         logger (LogRouteSent phoneNumber (messageId result)) ;;
         ret (Created result))
        (fun error =>
           logger (LogRouteSendFailed (error_message error) phoneNumber) ;;
           if JS.includes "not connected" (error_message error)
           then ret ServiceUnavailable
           else ret (InternalServerError (error_message error))).
Proof.
  unfold post_message, post_message_handler.
  destruct p as [s|], m as [t|]; try reflexivity.
  - cbn. destruct (String.eqb s ""); reflexivity.
Qed.

(** What the handler does is decided by [passes_validation]: a failing
    request is answered 400 and nothing but the log changes. *)
Lemma post_message_rejects (p m : option string) (w : world) :
  passes_validation p m = false ->
  is_bad_request (result (post_message p m) w) = true /\
  this (exec (post_message p m) w) = this w /\
  sent (exec (post_message p m) w) = sent w /\
  handles (exec (post_message p m) w) = handles w /\
  timers (exec (post_message p m) w) = timers w.
Proof.
  rewrite post_message_strings. unfold passes_validation. intros H.
  destruct (JS.truthy_str p); cbn in *; [| js_unfold; cbn; auto].
  destruct (JS.truthy_str m); cbn in *; [| js_unfold; cbn; auto].
  rewrite H. js_unfold; cbn; auto.
Qed.

(** A request that passes reaches [sendMessage]. *)
Lemma post_message_passes (p m : option string) (w : world) :
  passes_validation p m = true ->
  post_message p m w =
  try_catch
    (result <- sendMessage (default "" p) (default "" m) ;;
     logger (LogRouteSent (default "" p) (messageId result)) ;;
     ret (Created result))
    (fun error =>
       logger (LogRouteSendFailed (error_message error) (default "" p)) ;;
       if JS.includes "not connected" (error_message error)
       then ret ServiceUnavailable
       else ret (InternalServerError (error_message error))) w.
Proof.
  rewrite post_message_strings. unfold passes_validation. intros H.
  apply andb_prop in H as [H Hre]. apply andb_prop in H as [Hp Hm].
  rewrite Hp, Hm, Hre. reflexivity.
Qed.

(** The outcome of [sendMessage], case by case. *)
Lemma sendMessage_not_connected (p m : string) (w : world) :
  isConnected (this w) = false ->
  sendMessage p m w =
  (Threw (PlainError "WhatsApp is not connected. Please scan the QR code first."), w).
Proof. intros H. unfold sendMessage. js_unfold. rewrite H. reflexivity. Qed.

Lemma sendMessage_connected (p m : string) (w : world) :
  isConnected (this w) = true ->
  let jid := JS.replace_non_digits p ++ "@s.whatsapp.net" in
  this (exec (sendMessage p m) w) = this w /\
  match socket (this w) with
  | None =>
      sent (exec (sendMessage p m) w) = sent w /\
      exists e, result (sendMessage p m) w = Threw (TypeError e)
  | Some h =>
      sent (exec (sendMessage p m) w) = (sent w ++ [mkCall h jid m])%list /\
      match sendAnswer w with
      | inl e => result (sendMessage p m) w = Threw e
      | inr id =>
          result (sendMessage p m) w =
          Returned {| success := true; messageId := id; to := jid |}
      end
  end.
Proof.
  intros H. unfold sendMessage, socket_sendMessage. js_unfold. rewrite H. cbn.
  destruct (socket (this w)) as [h|]; cbn.
  - destruct (sendAnswer w); cbn; auto.
  - eauto.
Qed.



Lemma sendMessage_digits (d1 d2 m : string) (w : world) :
  JS.replace_non_digits d1 = JS.replace_non_digits d2 ->
  sendMessage d1 m w = sendMessage d2 m w.
Proof. intros H. unfold sendMessage. rewrite H. reflexivity. Qed.

Lemma passes_validation_digits (d1 d2 : string) (m : option string) :
  JS.replace_non_digits d1 = JS.replace_non_digits d2 ->
  passes_validation (Some d1) m = passes_validation (Some d2) m.
Proof.
  intros H. unfold passes_validation, default. cbn [from_option id]. rewrite <- H.
  destruct (phoneRegex_test (JS.replace_non_digits d1)) eqn:Hre.
  - rewrite (truthy_of_regex d1 Hre).
    rewrite H in Hre. rewrite (truthy_of_regex d2 Hre). reflexivity.
  - rewrite !andb_false_r. reflexivity.
Qed.

Lemma post_message_bad_request_iff (p m : option string) (w : world) :
  is_bad_request (result (post_message p m) w) = negb (passes_validation p m).
Proof.
  destruct (passes_validation p m) eqn:Hv.
  - unfold result, exec. rewrite (post_message_passes p m w Hv).
    unfold sendMessage, socket_sendMessage. js_unfold.
    destruct (isConnected (this w)); cbn.
    + destruct (socket (this w)); cbn.
      * destruct (sendAnswer w) as [e|id]; cbn; [| reflexivity].
        destruct (JS.includes _ _); reflexivity.
      * reflexivity.
    + reflexivity.
  - apply (post_message_rejects p m w Hv).
Qed.

(** A 201 answer carries the address made of the digits, and that address
    is the one the socket was called with. *)
Lemma post_message_created (p m : option string) (w : world) (data : send_result) :
  result (post_message p m) w = Returned (Created data) ->
  to data = JS.replace_non_digits (default "" p) ++ "@s.whatsapp.net" /\
  exists h,
    socket (this w) = Some h /\
    sent (exec (post_message p m) w) =
    (sent w ++ [mkCall h (to data) (default "" m)])%list.
Proof.
  destruct (passes_validation p m) eqn:Hv.
  - unfold result, exec. rewrite (post_message_passes p m w Hv).
    unfold sendMessage, socket_sendMessage. js_unfold.
    destruct (isConnected (this w)); cbn.
    + destruct (socket (this w)) as [h|]; cbn.
      * destruct (sendAnswer w) as [e|id]; cbn.
        -- destruct (JS.includes _ _); cbn; discriminate.
        -- intros [= <-]. cbn. eauto.
      * discriminate.
    + discriminate.
  - intros H. pose proof (post_message_bad_request_iff p m w) as Hb.
    rewrite H, Hv in Hb. discriminate.
Qed.

(* ------------------------------------------------------------------ *)
(** ** The timer queue *)

Lemma count_action_filter (a : timer_action) (ts : list timer) :
  count_action a ts = length (List.filter (is_action a) ts).
Proof. reflexivity. Qed.

Lemma count_action_app (a : timer_action) (ts us : list timer) :
  count_action a (ts ++ us) = (count_action a ts + count_action a us)%nat.
Proof. unfold count_action. rewrite List.filter_app, length_app. reflexivity. Qed.

Lemma count_action_cons (a : timer_action) (x : timer) (ts : list timer) :
  count_action a (x :: ts) =
  ((if is_action a x then 1 else 0) + count_action a ts)%nat.
Proof.
  unfold count_action. cbn [List.filter]. fold (is_action a x).
  destruct (is_action a x); reflexivity.
Qed.

Lemma next_timer_None (ts : list timer) :
  next_timer ts = None -> ts = [].
Proof.
  destruct ts as [|x r]; [reflexivity |]. cbn.
  destruct (next_timer r) as [[m r']|]; [| discriminate].
  destruct (due x <=? due m); discriminate.
Qed.

Lemma next_timer_length (ts : list timer) (m : timer) (r : list timer) :
  next_timer ts = Some (m, r) -> length ts = S (length r).
Proof.
  revert m r. induction ts as [|x ts IH]; intros m r; cbn; [discriminate |].
  destruct (next_timer ts) as [[m' r']|] eqn:E.
  - specialize (IH _ _ eq_refl).
    destruct (due x <=? due m'); intros [= <- <-]; cbn; lia.
  - apply next_timer_None in E as ->. intros [= <- <-]. reflexivity.
Qed.

Lemma next_timer_earliest (ts : list timer) (m : timer) (r : list timer) :
  next_timer ts = Some (m, r) -> forall x, In x ts -> due m <= due x.
Proof.
  revert m r. induction ts as [|x ts IH]; intros m r; cbn; [discriminate |].
  destruct (next_timer ts) as [[m' r']|] eqn:E.
  - specialize (IH _ _ eq_refl).
    destruct (Z.leb_spec (due x) (due m')); intros [= <- <-] y [<- | Hy];
      try lia; specialize (IH _ Hy); lia.
  - apply next_timer_None in E as ->.
    intros [= <- <-] y [<- | []]. lia.
Qed.

Lemma next_timer_count (a : timer_action) (ts : list timer) (m : timer)
    (r : list timer) :
  next_timer ts = Some (m, r) ->
  count_action a ts = ((if is_action a m then 1 else 0) + count_action a r)%nat.
Proof.
  revert m r. induction ts as [|x ts IH]; intros m r; cbn [next_timer];
    [discriminate |].
  destruct (next_timer ts) as [[m' r']|] eqn:E.
  - specialize (IH _ _ eq_refl).
    destruct (due x <=? due m'); intros [= <- <-];
      rewrite !count_action_cons; [reflexivity | lia].
  - apply next_timer_None in E as ->. intros [= <- <-].
    rewrite count_action_cons. reflexivity.
Qed.

Lemma next_timer_In (ts : list timer) (m : timer) (r : list timer) :
  next_timer ts = Some (m, r) ->
  forall x, In x ts <-> x = m \/ In x r.
Proof.
  revert m r. induction ts as [|x ts IH]; intros m r; cbn [next_timer];
    [discriminate |].
  destruct (next_timer ts) as [[m' r']|] eqn:E.
  - specialize (IH _ _ eq_refl).
    destruct (due x <=? due m'); intros [= <- <-] y; cbn.
    + intuition congruence.
    + rewrite (IH y). intuition congruence.
  - apply next_timer_None in E as ->. intros [= <- <-] y. cbn.
    intuition congruence.
Qed.

(** Taking a due timer out leaves the timers that are not due as they
    were, in the same order. *)
Lemma next_timer_not_due (t : Z) (ts : list timer) (m : timer) (r : list timer) :
  next_timer ts = Some (m, r) ->
  due m <= t ->
  List.filter (not_due t) r = List.filter (not_due t) ts.
Proof.
  revert m r. induction ts as [|x ts IH]; intros m r; cbn [next_timer];
    [discriminate |].
  destruct (next_timer ts) as [[m' r']|] eqn:E.
  - specialize (IH _ _ eq_refl).
    destruct (due x <=? due m'); intros [= <- <-] Hd; cbn [List.filter].
    + unfold not_due at 2. destruct (Z.ltb_spec t (due x)); [lia | reflexivity].
    + rewrite (IH Hd). reflexivity.
  - apply next_timer_None in E as ->. intros [= <- <-] Hd. cbn.
    unfold not_due. destruct (Z.ltb_spec t (due x)); [lia | reflexivity].
Qed.

Lemma filter_not_due_all (t : Z) (ts : list timer) :
  (forall x, In x ts -> t < due x) ->
  List.filter (not_due t) ts = ts.
Proof.
  induction ts as [|x ts IH]; intros H; [reflexivity |].
  cbn. unfold not_due at 1.
  destruct (Z.ltb_spec t (due x)).
  - rewrite IH; [reflexivity |]. intros y Hy. apply H. now right.
  - specialize (H x (or_introl eq_refl)). lia.
Qed.

(** What each callback does to the process. *)
Lemma run_callback_ExpireQR (w : world) :
  exec (run_callback ExpireQR) w =
  if isConnected (this w) then w
  else set_log (log w ++ [LogQRExpired]) (set_this (set_qr None (this w)) w).
Proof.
  unfold run_callback. js_unfold.
  destruct w as [s c ts hs se fs me sa fe re qe l]; cbn.
  destruct (isConnected s); reflexivity.
Qed.

Lemma run_callback_Reconnect (w : world) :
  exec (run_callback Reconnect) w =
  match makeSocketError w with
  | None =>
      set_this (set_socket (Some (length (handles w))) (this w))
               (set_handles (handles w ++ [Pending]) w)
  | Some e => set_log (log w ++ [LogConnectionError e]) w
  end.
Proof.
  unfold run_callback, connect, makeWASocket. js_unfold.
  destruct (makeSocketError w); reflexivity.
Qed.

Lemma run_timers_S (fuel : nat) (t : Z) (w : world) :
  run_timers (S fuel) t w =
  match next_timer (timers w) with
  | Some (tm, rest) =>
      if due tm <=? t then run_timers fuel t (fire tm rest w) else w
  | None => w
  end.
Proof. reflexivity. Qed.

Lemma fire_timers (tm : timer) (rest : list timer) (w : world) :
  timers (fire tm rest w) = rest.
Proof.
  unfold fire. destruct (action tm).
  - rewrite run_callback_ExpireQR. cbn. destruct (isConnected (this w)); reflexivity.
  - rewrite run_callback_Reconnect. cbn. destruct (makeSocketError w); reflexivity.
Qed.

(** A property kept by every firing is kept by [run_timers]. *)
Lemma run_timers_invariant (P : world -> Prop) (t : Z) :
  (forall w tm rest,
     P w -> next_timer (timers w) = Some (tm, rest) -> due tm <= t ->
     P (fire tm rest w)) ->
  forall fuel w, P w -> P (run_timers fuel t w).
Proof.
  intros Hstep. induction fuel as [|fuel IH]; intros w Hw; [exact Hw |].
  rewrite run_timers_S.
  destruct (next_timer (timers w)) as [[tm rest]|] eqn:E; [| exact Hw].
  destruct (Z.leb_spec (due tm) t); [| exact Hw].
  apply IH. eapply Hstep; eauto.
Qed.

(** With fuel for every pending timer, what is left in the queue is what
    was not due. *)
Lemma run_timers_timers (t : Z) (fuel : nat) (w : world) :
  (length (timers w) <= fuel)%nat ->
  timers (run_timers fuel t w) = List.filter (not_due t) (timers w).
Proof.
  revert w. induction fuel as [|fuel IH]; intros w Hf.
  - destruct (timers w) eqn:E; [cbn; rewrite E; reflexivity | cbn in Hf; lia].
  - rewrite run_timers_S.
    destruct (next_timer (timers w)) as [[tm rest]|] eqn:E.
    + destruct (Z.leb_spec (due tm) t).
      * rewrite IH; rewrite fire_timers.
        -- eapply next_timer_not_due; eauto.
        -- apply next_timer_length in E. lia.
      * symmetry. apply filter_not_due_all. intros x Hx.
        pose proof (next_timer_earliest _ _ _ E x Hx). lia.
    + apply next_timer_None in E. rewrite E. reflexivity.
Qed.

(* ------------------------------------------------------------------ *)
(** ** The connection.update handler *)

Lemma emit_registered (h : nat) (u : update) (w : world) :
  (h < length (handles w))%nat ->
  emit h u w =
  handleConnectionUpdate u (set_handles (note_report h u (handles w)) w).
Proof.
  intros Hh. unfold emit. js_unfold.
  rewrite bool_decide_eq_true_2 by exact Hh. reflexivity.
Qed.

Lemma emit_unregistered (h : nat) (u : update) (w : world) :
  (length (handles w) <= h)%nat -> emit h u w = (Returned tt, w).
Proof.
  intros Hh. unfold emit. js_unfold.
  rewrite bool_decide_eq_false_2 by lia. reflexivity.
Qed.

Lemma note_report_length (h : nat) (u : update) (hs : list handle_status) :
  length (note_report h u hs) = length hs.
Proof.
  unfold note_report.
  destruct (hs !! h) as [st|]; [| reflexivity].
  destruct (upd_connection u) as [[]|]; try reflexivity;
    destruct (alive st); rewrite ?length_insert; reflexivity.
Qed.

(** A ['close'] update: the whole effect of the handler, field by field.
    [retry] is the test of the first branch of the handler. *)
Lemma handle_close (u : update) (w : world) :
  upd_connection u = Some ConnClose ->
  let w' := exec (handleConnectionUpdate u) w in
  let retry :=
    shouldReconnect u
    && (connectionAttempts (this w) <? maxReconnectAttempts (this w)) in
  let expiry := mkTimer (clock w) 120000 ExpireQR in
  let backoff :=
    mkTimer (clock w)
            (baseRetryDelay (this w) * (connectionAttempts (this w) + 1))
            Reconnect in
  isConnected (this w') = false /\
  qr (this w') = (if JS.truthy_str (upd_qr u) then upd_qr u else qr (this w)) /\
  socket (this w') = socket (this w) /\
  connectionAttempts (this w') =
    (if retry then connectionAttempts (this w) + 1
     else connectionAttempts (this w)) /\
  lastConnectionAttempt (this w') =
    (if retry then lastConnectionAttempt (this w)
     else if maxReconnectAttempts (this w) <=? connectionAttempts (this w)
          then Some (clock w)
          else lastConnectionAttempt (this w)) /\
  timers w' = (timers w ++ expiry :: (if retry then [backoff] else []))%list /\
  maxReconnectAttempts (this w') = maxReconnectAttempts (this w) /\
  baseRetryDelay (this w') = baseRetryDelay (this w) /\
  cooldownPeriod (this w') = cooldownPeriod (this w) /\
  handles w' = handles w /\
  clock w' = clock w /\
  sent w' = sent w /\
  makeSocketError w' = makeSocketError w /\
  qrRenderError w' = qrRenderError w.
Proof.
  intros Hc. unfold handleConnectionUpdate, is_connection. rewrite Hc.
  js_unfold.
  destruct (JS.truthy_str (upd_qr u)); cbn;
    destruct (shouldReconnect u); cbn;
    destruct (connectionAttempts (this w) <? maxReconnectAttempts (this w));
    cbn;
    try (destruct (maxReconnectAttempts (this w) <=? connectionAttempts (this w));
         cbn);
    rewrite <- ?app_assoc; repeat split; reflexivity.
Qed.

(** An update that is neither ['close'] nor ['open'] can only store a
    pairing code. *)
Lemma handle_other (u : update) (w : world) :
  is_connection ConnClose u = false ->
  is_connection ConnOpen u = false ->
  let w' := exec (handleConnectionUpdate u) w in
  this w' =
    (if JS.truthy_str (upd_qr u) then set_qr (upd_qr u) (this w) else this w) /\
  timers w' = timers w /\
  handles w' = handles w /\
  clock w' = clock w /\
  sent w' = sent w /\
  makeSocketError w' = makeSocketError w.
Proof.
  intros Hc Ho. unfold handleConnectionUpdate. rewrite Hc, Ho. js_unfold.
  destruct (JS.truthy_str (upd_qr u)); cbn; repeat split; reflexivity.
Qed.

(** An ['open'] update. *)
Lemma handle_open (u : update) (w : world) :
  upd_connection u = Some ConnOpen ->
  let w' := exec (handleConnectionUpdate u) w in
  isConnected (this w') = true /\
  qr (this w') = None /\
  connectionAttempts (this w') = 0 /\
  socket (this w') = socket (this w) /\
  lastConnectionAttempt (this w') = lastConnectionAttempt (this w) /\
  timers w' = timers w /\
  handles w' = handles w.
Proof.
  intros Hc. unfold handleConnectionUpdate, is_connection. rewrite Hc.
  js_unfold.
  destruct (JS.truthy_str (upd_qr u)); cbn; repeat split; reflexivity.
Qed.

(** The handler never looks at the sockets: which socket emitted the
    update makes no difference to the service and to the timers. *)
Lemma handler_ignores_handles (u : update) (hs : list handle_status) (w : world) :
  this (exec (handleConnectionUpdate u) (set_handles hs w)) =
  this (exec (handleConnectionUpdate u) w) /\
  timers (exec (handleConnectionUpdate u) (set_handles hs w)) =
  timers (exec (handleConnectionUpdate u) w) /\
  log (exec (handleConnectionUpdate u) (set_handles hs w)) =
  log (exec (handleConnectionUpdate u) w).
Proof.
  unfold handleConnectionUpdate, is_connection. js_unfold.
  destruct (JS.truthy_str (upd_qr u)); cbn;
    destruct (upd_connection u) as [[]|]; cbn; try (repeat split; reflexivity);
    destruct (shouldReconnect u); cbn;
    destruct (connectionAttempts (this w) <? maxReconnectAttempts (this w));
    cbn;
    try (destruct (maxReconnectAttempts (this w) <=? connectionAttempts (this w));
         cbn);
    repeat split; reflexivity.
Qed.

(* ------------------------------------------------------------------ *)
(** ** initialize *)

Lemma ceil_div_bounds (n d : Z) :
  0 < d -> d * (JS.ceil_div n d - 1) < n <= d * JS.ceil_div n d.
Proof.
  intros Hd. unfold JS.ceil_div.
  pose proof (Z.div_mod (- n) d ltac:(lia)).
  pose proof (Z.mod_pos_bound (- n) d Hd). nia.
Qed.

(** C6 (amended). During the cooldown ([lastConnectionAttempt] set and
    [Date.now() - lastConnectionAttempt < cooldownPeriod]) [initialize()]
    makes no socket and leaves the service, the timers and the sockets
    as they were; [lastConnectionAttempt] is not renewed.  The remaining
    time goes to the logger only (a warning with the seconds left,
    rounded up, then the end of the cooldown): the call itself returns
    normally, with no value. *)
Theorem initialize_in_cooldown (w : world) (last : Z) :
  lastConnectionAttempt (this w) = Some last ->
  last <> 0 ->
  clock w - last < cooldownPeriod (this w) ->
  let waitTime :=
    JS.ceil_div (cooldownPeriod (this w) - (clock w - last)) 1000 in
  initialize w =
    (Returned tt,
     set_log (log w ++ [LogCooldownWait waitTime;
                        LogCooldownEndsAt (last + cooldownPeriod (this w))]) w) /\
  this (exec initialize w) = this w /\
  handles (exec initialize w) = handles w /\
  timers (exec initialize w) = timers w /\
  1000 * (waitTime - 1) < cooldownPeriod (this w) - (clock w - last)
    <= 1000 * waitTime.
Proof.
  intros Hl Hz Hc.
  assert (E : initialize w =
    (Returned tt,
     set_log (log w ++
       [LogCooldownWait
          (JS.ceil_div (cooldownPeriod (this w) - (clock w - last)) 1000);
        LogCooldownEndsAt (last + cooldownPeriod (this w))]) w)).
  { unfold initialize. js_unfold. rewrite Hl. cbn.
    destruct (Z.eqb_spec last 0); [contradiction |].
    destruct (Z.ltb_spec (clock w - last) (cooldownPeriod (this w))); [| lia].
    cbn. rewrite <- app_assoc. reflexivity. }
  cbn zeta. unfold exec. rewrite E. cbn.
  do 4 (split; [reflexivity |]). apply ceil_div_bounds. lia.
Qed.

Lemma initialize_in_cooldown_witness :
  let w := run [Initialize; Wait 5000] (boot 1000) in
  initialize w =
    (Returned tt,
     set_log (log w ++ [LogCooldownWait 296; LogCooldownEndsAt 301000]) w) /\
  this (exec initialize w) = this w /\
  handles (exec initialize w) = handles w /\
  timers (exec initialize w) = timers w /\
  1000 * (296 - 1) < 300000 - (5000 - 1000) <= 1000 * 296.
Proof.
  apply (initialize_in_cooldown (run [Initialize; Wait 5000] (boot 1000)) 1000).
  - reflexivity.
  - lia.
  - cbn. lia.
Defined.

(** C6, as stated, fails: in the cooldown the caller of [initialize()]
    is told nothing.  The call returns as it does after a start that
    went through. *)
Lemma initialize_cooldown_not_reported_to_caller :
  let w := run [Initialize; Wait 5000] (boot 1000) in
  in_cooldown w = true /\
  result initialize w = Returned tt /\
  result initialize w = result initialize (boot 1000) /\
  in_cooldown (boot 1000) = false /\
  socket (this (exec initialize (boot 1000))) = Some 0%nat.
Proof. repeat split; reflexivity. Qed.

(* ------------------------------------------------------------------ *)
(** ** Events of a socket that is no longer the current one *)

(** C2 (amended). The handler carries no generation tag: a ['close']
    update from a superseded socket is handled exactly as one from the
    current socket (the emitting socket makes no difference).  It leaves
    [qr] and [socket] alone, but it sets [isConnected = false],
    registers the expiry of the pairing code, and applies the retry rule:
    below the ceiling and without logout, [connectionAttempts + 1] and a
    deferred [connect()]; at the ceiling, [lastConnectionAttempt = now]. *)
Theorem closed_event_from_any_handle (w : world) (h h' : nat) (u : update) :
  (h < length (handles w))%nat ->
  (h' < length (handles w))%nat ->
  upd_connection u = Some ConnClose ->
  JS.truthy_str (upd_qr u) = false ->
  let w' := exec (emit h u) w in
  let retry :=
    shouldReconnect u
    && (connectionAttempts (this w) <? maxReconnectAttempts (this w)) in
  this w' = this (exec (emit h' u) w) /\
  timers w' = timers (exec (emit h' u) w) /\
  isConnected (this w') = false /\
  qr (this w') = qr (this w) /\
  socket (this w') = socket (this w) /\
  connectionAttempts (this w') =
    (if retry then connectionAttempts (this w) + 1
     else connectionAttempts (this w)) /\
  lastConnectionAttempt (this w') =
    (if retry then lastConnectionAttempt (this w)
     else if maxReconnectAttempts (this w) <=? connectionAttempts (this w)
          then Some (clock w)
          else lastConnectionAttempt (this w)) /\
  timers w' =
    (timers w ++
     mkTimer (clock w) 120000 ExpireQR ::
     (if retry
      then [mkTimer (clock w)
              (baseRetryDelay (this w) * (connectionAttempts (this w) + 1))
              Reconnect]
      else []))%list.
Proof.
  intros Hh Hh' Hc Hq. cbn zeta. unfold exec.
  rewrite (emit_registered h u w Hh), (emit_registered h' u w Hh').
  pose proof (handler_ignores_handles u (note_report h u (handles w)) w)
    as (E1 & E2 & _).
  pose proof (handler_ignores_handles u (note_report h' u (handles w)) w)
    as (E1' & E2' & _).
  unfold exec in *. rewrite E1, E2, E1', E2'.
  pose proof (handle_close u w Hc)
    as (H1 & H2 & H3 & H4 & H5 & H6 & _).
  rewrite Hq in H2. unfold exec in *.
  repeat split; assumption.
Qed.

Lemma closed_event_from_any_handle_witness :
  let w := run [Initialize;
                Emit 0%nat (close_update (Some (PlainError "timed out")));
                Wait 61000;
                Emit 1%nat open_update] (boot 1000) in
  let w' := exec (emit 0%nat (close_update None)) w in
  this w' = this (exec (emit 1%nat (close_update None)) w) /\
  timers w' = timers (exec (emit 1%nat (close_update None)) w) /\
  isConnected (this w') = false /\
  qr (this w') = None /\
  socket (this w') = Some 1%nat /\
  connectionAttempts (this w') = 1 /\
  lastConnectionAttempt (this w') = Some 1000 /\
  timers w' =
    [mkTimer 1000 120000 ExpireQR;
     mkTimer 61000 120000 ExpireQR;
     mkTimer 61000 60000 Reconnect].
Proof.
  apply (closed_event_from_any_handle
           (run [Initialize;
                 Emit 0%nat (close_update (Some (PlainError "timed out")));
                 Wait 61000;
                 Emit 1%nat open_update] (boot 1000))
           0%nat 1%nat (close_update None)).
  - vm_compute. lia.
  - vm_compute. lia.
  - reflexivity.
  - reflexivity.
Defined.

(** C2, as stated, fails.  Socket 0 closes, the backoff timer makes
    socket 1, socket 1 reports ['open']; then two late ['close'] updates
    of socket 0 each change the state: the first takes [isConnected] from
    true to false and [connectionAttempts] from 0 to 1, the second takes
    [connectionAttempts] to 2, and each registers a deferred
    [connect()]. *)
Lemma stale_closed_events_change_state :
  let w := run [Initialize;
                Emit 0%nat (close_update (Some (PlainError "timed out")));
                Wait 61000;
                Emit 1%nat open_update] (boot 1000) in
  let stale := Emit 0%nat (close_update (Some (PlainError "timed out"))) in
  let w1 := step stale w in
  let w2 := step stale w1 in
  socket (this w) = Some 1%nat /\
  handles w = [Closed; Opened] /\
  (isConnected (this w), connectionAttempts (this w)) = (true, 0) /\
  (isConnected (this w1), connectionAttempts (this w1)) = (false, 1) /\
  (isConnected (this w2), connectionAttempts (this w2)) = (false, 2) /\
  count_action Reconnect (timers w) = 0%nat /\
  count_action Reconnect (timers w1) = 1%nat /\
  count_action Reconnect (timers w2) = 2%nat /\
  this w1 <> this w /\
  this w2 <> this w1.
Proof. repeat split; try reflexivity; cbn; discriminate. Qed.

(* ------------------------------------------------------------------ *)
(** ** What the passing of time can change *)

Lemma fire_cases (tm : timer) (rest : list timer) (w : world) :
  fire tm rest w =
  let w1 := set_clock (Z.max (clock w) (due tm)) (set_timers rest w) in
  match action tm with
  | ExpireQR =>
      if isConnected (this w) then w1
      else set_log (log w ++ [LogQRExpired]) (set_this (set_qr None (this w)) w1)
  | Reconnect =>
      match makeSocketError w with
      | None =>
          set_this (set_socket (Some (length (handles w))) (this w))
                   (set_handles (handles w ++ [Pending]) w1)
      | Some e => set_log (log w ++ [LogConnectionError e]) w1
      end
  end.
Proof.
  unfold fire. destruct (action tm).
  - rewrite run_callback_ExpireQR. cbn.
    destruct (isConnected (this w)); reflexivity.
  - rewrite run_callback_Reconnect. cbn.
    destruct (makeSocketError w); reflexivity.
Qed.

Lemma steady_refl (w : world) : steady w w.
Proof. repeat split. Qed.

Lemma steady_trans (w1 w2 w3 : world) :
  steady w1 w2 -> steady w2 w3 -> steady w1 w3.
Proof. unfold steady. intuition congruence. Qed.

Lemma fire_steady (tm : timer) (rest : list timer) (w : world) :
  steady w (fire tm rest w).
Proof.
  rewrite fire_cases. cbn zeta.
  destruct (action tm);
    [destruct (isConnected (this w)) eqn:E | destruct (makeSocketError w) eqn:E];
    repeat split; cbn; congruence.
Qed.

Lemma run_timers_steady (fuel : nat) (t : Z) (w : world) :
  steady w (run_timers fuel t w).
Proof.
  apply (run_timers_invariant (steady w) t); [| apply steady_refl].
  intros w' tm rest Hs _ _. eapply steady_trans; [exact Hs | apply fire_steady].
Qed.

Lemma advance_steady (t : Z) (w : world) : steady w (advance t w).
Proof. apply (run_timers_steady (length (timers w)) t w). Qed.

Lemma advance_timers (t : Z) (w : world) :
  timers (advance t w) = List.filter (not_due t) (timers w).
Proof. unfold advance. cbn. apply run_timers_timers. lia. Qed.





(** While the socket library answers, every deferred [connect()] that
    fires makes one socket. *)
Lemma run_timers_sockets (fuel : nat) (t : Z) (w : world) :
  makeSocketError w = None ->
  let w' := run_timers fuel t w in
  (length (handles w') + count_action Reconnect (timers w')
   = length (handles w) + count_action Reconnect (timers w))%nat /\
  ((length (handles w) < length (handles w'))%nat
   -> socket (this w') = Some (length (handles w') - 1)%nat).
Proof.
  intros He.
  apply (run_timers_invariant
           (fun w' =>
              makeSocketError w' = None /\
              (length (handles w') + count_action Reconnect (timers w')
               = length (handles w) + count_action Reconnect (timers w))%nat /\
              ((length (handles w) < length (handles w'))%nat
               -> socket (this w') = Some (length (handles w') - 1)%nat)) t);
    [| repeat split; [assumption | lia]].
  intros w' tm rest (He' & Hc & Hs) Hn _.
  rewrite (next_timer_count Reconnect _ _ _ Hn) in Hc.
  rewrite fire_cases. cbn zeta. unfold is_action in Hc.
  destruct (action tm); cbn in Hc.
  - destruct (isConnected (this w')); cbn;
      (split; [assumption |]); (split; [lia | exact Hs]).
  - rewrite He'. cbn. rewrite length_app. cbn.
    split; [assumption |]. split; [lia |].
    intros _. f_equal. lia.
Qed.



(* ------------------------------------------------------------------ *)
(** ** The deferred connect() *)

(** While the socket library answers, the sockets made up to an instant
    are those there were and one for each deferred [connect()] that was
    due. *)
Lemma advance_sockets (t : Z) (w : world) :
  makeSocketError w = None ->
  (length (handles (advance t w))
   + count_action Reconnect (List.filter (not_due t) (timers w))
   = length (handles w) + count_action Reconnect (timers w))%nat.
Proof.
  intros He.
  pose proof (run_timers_sockets (length (timers w)) t w He) as [Hc _].
  pose proof (advance_timers t w) as Ht. unfold advance in *. cbn in *.
  rewrite Ht in Hc. exact Hc.
Qed.

(** C4. A ['close'] update that is not a logout, received with
    [connectionAttempts] in [0, maxReconnectAttempts), adds 1 to
    [connectionAttempts] and registers exactly one [() => this.connect()]
    timer, with the delay [baseRetryDelay * (connectionAttempts + 1)]
    counted from the value before the event.  (The other timer it
    registers is the expiry of the pairing code.)  The timer runs
    [connect()] when the delay has passed and not before: with a delay
    that Node takes as it is (from 1 ms to [2^31 - 1] ms) and a socket
    library that answers, the sockets made up to any instant are those
    of the same run without the event before the delay has passed, and
    exactly one more from then on. *)
Theorem closed_event_schedules_one_retry (w : world) (h : nat) (u : update)
    (t : Z) :
  (h < length (handles w))%nat ->
  upd_connection u = Some ConnClose ->
  shouldReconnect u = true ->
  0 <= connectionAttempts (this w) < maxReconnectAttempts (this w) ->
  let w' := exec (emit h u) w in
  let delay := baseRetryDelay (this w) * (connectionAttempts (this w) + 1) in
  connectionAttempts (this w') = connectionAttempts (this w) + 1 /\
  timers w' =
    (timers w ++
     [mkTimer (clock w) 120000 ExpireQR;
      mkTimer (clock w) delay Reconnect])%list /\
  count_action Reconnect (timers w') = S (count_action Reconnect (timers w)) /\
  (makeSocketError w = None ->
   1 <= delay <= TIMEOUT_MAX ->
   length (handles (advance t w')) =
   (length (handles (advance t w))
    + (if (clock w + delay <=? t)%Z then 1 else 0))%nat).
Proof.
  intros Hh Hc Hs [_ Hlt]. unfold exec. rewrite (emit_registered h u w Hh).
  pose proof (handle_close u (set_handles (note_report h u (handles w)) w) Hc)
    as (_ & _ & _ & Ha & _ & Ht & _ & _ & _ & Hhs & _ & _ & Hm & _).
  cbn in Ha, Ht, Hhs, Hm. rewrite Hs in Ha, Ht.
  apply Z.ltb_lt in Hlt. rewrite Hlt in Ha, Ht. cbn in Ha, Ht.
  unfold exec in Ha, Ht, Hhs, Hm. cbn zeta.
  set (w' := (handleConnectionUpdate u
                (set_handles (note_report h u (handles w)) w)).2) in *.
  split; [exact Ha |]. split; [exact Ht |].
  assert (Hcount : count_action Reconnect (timers w')
                   = S (count_action Reconnect (timers w))).
  { rewrite Ht, count_action_app, !count_action_cons.
    change (count_action Reconnect []) with 0%nat. cbn. lia. }
  split; [exact Hcount |].
  intros He [Hd1 Hd2].
  pose proof (advance_sockets t w He) as E.
  pose proof (advance_sockets t w' ltac:(congruence)) as E'.
  rewrite Hcount, Hhs, note_report_length, Ht, List.filter_app,
    count_action_app in E'.
  assert (Hnew : count_action Reconnect
            (List.filter (not_due t)
               [mkTimer (clock w) 120000 ExpireQR;
                mkTimer (clock w)
                        (baseRetryDelay (this w) * (connectionAttempts (this w) + 1))
                        Reconnect])
            = if clock w
                 + baseRetryDelay (this w) * (connectionAttempts (this w) + 1)
                 <=? t
              then 0%nat else 1%nat).
  { assert (Hdue : due (mkTimer (clock w)
                          (baseRetryDelay (this w)
                           * (connectionAttempts (this w) + 1)) Reconnect)
                   = clock w + baseRetryDelay (this w)
                               * (connectionAttempts (this w) + 1)).
    { unfold due, timeout_after. cbn [registeredAt delay].
      destruct (Z.leb_spec 1 (baseRetryDelay (this w)
                              * (connectionAttempts (this w) + 1))); [| lia].
      destruct (Z.leb_spec (baseRetryDelay (this w)
                            * (connectionAttempts (this w) + 1)) TIMEOUT_MAX);
        [reflexivity | lia]. }
    set (R := mkTimer (clock w)
                (baseRetryDelay (this w) * (connectionAttempts (this w) + 1))
                Reconnect) in *.
    assert (Hf : count_action Reconnect
                   (List.filter (not_due t)
                      [mkTimer (clock w) 120000 ExpireQR; R])
                 = if not_due t R then 1%nat else 0%nat).
    { cbn [List.filter].
      destruct (not_due t (mkTimer (clock w) 120000 ExpireQR));
        destruct (not_due t R); rewrite ?count_action_cons; reflexivity. }
    rewrite Hf. unfold not_due. rewrite Hdue.
    destruct (Z.ltb_spec t (clock w + baseRetryDelay (this w)
                            * (connectionAttempts (this w) + 1)));
      destruct (Z.leb_spec (clock w + baseRetryDelay (this w)
                            * (connectionAttempts (this w) + 1)) t);
      try lia; reflexivity. }
  rewrite Hnew in E'.
  destruct (clock w + baseRetryDelay (this w) * (connectionAttempts (this w) + 1)
            <=? t); lia.
Qed.

Lemma closed_event_schedules_one_retry_witness :
  let w := exec connect (boot 1000) in
  let u := close_update (Some (Boom (Some 428) "Connection Closed")) in
  let w' := exec (emit 0%nat u) w in
  connectionAttempts (this w') = 1 /\
  timers w' = [mkTimer 1000 120000 ExpireQR; mkTimer 1000 60000 Reconnect] /\
  count_action Reconnect (timers w') = 1%nat /\
  length (handles (advance 60999 w')) = 1%nat /\
  length (handles (advance 61000 w')) = 2%nat.
Proof.
  destruct (closed_event_schedules_one_retry
              (exec connect (boot 1000)) 0%nat
              (close_update (Some (Boom (Some 428) "Connection Closed")))
              60999)
    as (Ha & Ht & Hc & Hbefore).
  - cbn. lia.
  - reflexivity.
  - reflexivity.
  - cbn. lia.
  - destruct (closed_event_schedules_one_retry
                (exec connect (boot 1000)) 0%nat
                (close_update (Some (Boom (Some 428) "Connection Closed")))
                61000)
      as (_ & _ & _ & Hafter).
    + cbn. lia.
    + reflexivity.
    + reflexivity.
    + cbn. lia.
    + split; [exact Ha |]. split; [exact Ht |]. split; [exact Hc |].
      split.
      * apply Hbefore; [reflexivity | vm_compute; split; discriminate].
      * apply Hafter; [reflexivity | vm_compute; split; discriminate].
Defined.

(* ------------------------------------------------------------------ *)
(** ** resetConnection, disconnect, connect, forceConnect *)

Lemma socket_end_cases (h : nat) (w : world) :
  socket_end h w =
  let w1 := set_handles (<[h := Ended]> (handles w)) w in
  if is_live w h
  then handleConnectionUpdate (close_update None) w1
  else (Returned tt, w1).
Proof.
  unfold socket_end. js_unfold. cbn. destruct (is_live w h); reflexivity.
Qed.

(** The handler on the update that [end()] emits. *)
Lemma handle_end (w : world) :
  let w' := exec (handleConnectionUpdate (close_update None)) w in
  let retry := connectionAttempts (this w) <? maxReconnectAttempts (this w) in
  this w' =
    set_lastConnectionAttempt
      (if retry then lastConnectionAttempt (this w) else Some (clock w))
      (set_connectionAttempts
         (if retry then connectionAttempts (this w) + 1
          else connectionAttempts (this w))
         (set_isConnected false (this w))) /\
  timers w' =
    (timers w ++
     mkTimer (clock w) 120000 ExpireQR ::
     (if retry
      then [mkTimer (clock w)
                    (baseRetryDelay (this w) * (connectionAttempts (this w) + 1))
                    Reconnect]
      else []))%list /\
  handles w' = handles w /\
  clock w' = clock w /\
  sent w' = sent w /\
  sessionFiles w' = sessionFiles w /\
  makeSocketError w' = makeSocketError w /\
  sendAnswer w' = sendAnswer w /\
  fsError w' = fsError w /\
  rmError w' = rmError w /\
  qrRenderError w' = qrRenderError w /\
  result (handleConnectionUpdate (close_update None)) w = Returned tt.
Proof.
  unfold handleConnectionUpdate, is_connection, close_update, shouldReconnect.
  js_unfold. cbn.
  destruct (Z.ltb_spec (connectionAttempts (this w))
                       (maxReconnectAttempts (this w))); cbn.
  - rewrite <- app_assoc. destruct w as [[] ? ? ? ? ? ? ? ? ? ? ?]. repeat split; reflexivity.
  - destruct (Z.leb_spec (maxReconnectAttempts (this w))
                         (connectionAttempts (this w))); [| lia].
    cbn. destruct w as [[] ? ? ? ? ? ? ? ? ? ? ?]. repeat split; reflexivity.
Qed.

Ltac end_cases w :=
  unfold socket_end, handleConnectionUpdate, is_connection, close_update,
    shouldReconnect, end_stored, end_timers, end_attempts, end_lastAttempt,
    stored_live, is_live;
  js_unfold; cbn;
  destruct (socket (this w)) as [h|] eqn:Es; cbn; rewrite ?Es; cbn;
  [destruct (handles w !! h) as [[]|]; cbn |].

Lemma resetConnection_effects (w : world) :
  let w' := exec resetConnection w in
  this w' =
    mkService None None false (end_attempts 0 w)
              (maxReconnectAttempts (this w)) (baseRetryDelay (this w))
              (end_lastAttempt 0 None w) (cooldownPeriod (this w)) /\
  handles w' = end_stored w /\
  timers w' = (timers w ++ end_timers 0 w)%list /\
  clock w' = clock w /\
  sent w' = sent w /\
  sessionFiles w' = sessionFiles w /\
  makeSocketError w' = makeSocketError w /\
  fsError w' = fsError w /\
  rmError w' = rmError w /\
  result resetConnection w = Returned tt.
Proof.
  unfold resetConnection. end_cases w;
    try (destruct (Z.ltb_spec 0 (maxReconnectAttempts (this w))); cbn;
         [| destruct (Z.leb_spec (maxReconnectAttempts (this w)) 0); [cbn | lia]]);
    rewrite <- ?app_assoc, ?app_nil_r;
    unfold set_isConnected, set_qr, set_lastConnectionAttempt,
      set_connectionAttempts, set_socket; cbn; rewrite ?Es;
    repeat split; reflexivity.
Qed.

Lemma disconnect_effects (w : world) :
  let w' := exec disconnect w in
  let a := connectionAttempts (this w) in
  this w' =
    match socket (this w) with
    | Some _ =>
        mkService None None false (end_attempts a w)
                  (maxReconnectAttempts (this w)) (baseRetryDelay (this w))
                  (end_lastAttempt a (lastConnectionAttempt (this w)) w)
                  (cooldownPeriod (this w))
    | None => this w
    end /\
  handles w' = end_stored w /\
  timers w' = (timers w ++ end_timers a w)%list /\
  clock w' = clock w /\
  sent w' = sent w /\
  sessionFiles w' = sessionFiles w /\
  makeSocketError w' = makeSocketError w /\
  fsError w' = fsError w /\
  rmError w' = rmError w /\
  result disconnect w = Returned tt.
Proof.
  unfold disconnect. end_cases w;
    try (destruct (Z.ltb_spec (connectionAttempts (this w))
                              (maxReconnectAttempts (this w))); cbn;
         [| destruct (Z.leb_spec (maxReconnectAttempts (this w))
                                 (connectionAttempts (this w))); [cbn | lia]]);
    rewrite <- ?app_assoc, ?app_nil_r;
    unfold set_isConnected, set_qr, set_lastConnectionAttempt,
      set_connectionAttempts, set_socket; cbn; rewrite ?Es;
    repeat split; reflexivity.
Qed.

Lemma finish_unfold (fuel : nat) (p : waiting) (w : world) :
  finish fuel p w =
  (r <- resume p ;;
   match r with
   | inr v => ret v
   | inl q => match fuel with O => ret None | S fuel' => finish fuel' q end
   end) w.
Proof. destruct fuel; reflexivity. Qed.

Lemma clear_loop_waits (files rest : list string) (w : world) :
  exists q l, clear_loop files rest w = (Returned (inl q), set_log l w).
Proof.
  induction rest as [|f rest IH]; cbn [clear_loop].
  - js_unfold. cbn. eauto.
  - destruct (negb (String.eqb f ".gitkeep")); [| exact IH].
    exists (ClearSessionAtRm files f rest), (log w).
    destruct w; reflexivity.
Qed.

Lemma clear_loop_finish (files rest : list string) (fuel : nat) (w : world) :
  (length rest <= fuel)%nat ->
  (r <- clear_loop files rest ;; finish_from fuel r) w =
  clear_failed (remove_files rest ;; clear_tail files) w.
Proof.
  revert fuel w. induction rest as [|f rest IH]; intros fuel w Hf.
  - cbn [clear_loop remove_files]. unfold finish_from.
    unfold clear_tail, clear_failed. js_unfold. cbn.
    rewrite finish_unfold. cbn [resume]. unfold clear_failed. js_unfold.
    destruct (connect _) as [[[]|e] w']; reflexivity.
  - cbn [clear_loop remove_files].
    destruct (negb (String.eqb f ".gitkeep")) eqn:Eg.
    + cbn [length] in Hf. destruct fuel as [|fuel]; [lia |].
      unfold bind at 1. cbn [ret finish_from].
      rewrite finish_unfold. cbn [resume].
      unfold clear_failed at 1 2. unfold try_catch, bind, when.
      unfold fs_rm at 1 2. destruct (rmError w f) as [e|]; [reflexivity |].
      cbn [logger modify].
      match goal with |- context [clear_loop files rest ?x] => set (v := x) end.
      specialize (IH fuel v ltac:(lia)).
      unfold bind in IH at 1. unfold clear_failed, try_catch, bind in IH.
      change (logger (LogDeletedFile f)
                (set_sessionFiles
                   (List.filter (fun f0 => negb (String.eqb f0 f)) (sessionFiles w)) w))
        with (Returned tt, v).
      cbn beta iota.
      destruct (clear_loop_waits files rest v) as (q & l & El).
      rewrite El in IH |- *. exact IH.
    + unfold when. cbn [length] in Hf.
      specialize (IH fuel w ltac:(lia)). rewrite IH.
      unfold clear_failed, try_catch, bind, ret. reflexivity.
Qed.


Lemma initialize_uninterrupted (fuel : nat) (w : world) :
  initialize w =
  (p <- initialize_start ;;
   match p with
   | Some q => finish fuel q ;; ret tt
   | None => ret tt
   end) w.
Proof.
  unfold initialize, initialize_start. js_unfold.
  destruct (JS.truthy_num (lastConnectionAttempt (this w))
            && (clock w - default 0 (lastConnectionAttempt (this w))
                <? cooldownPeriod (this w))); cbn; [reflexivity |].
  rewrite finish_unfold. cbn [resume]. js_unfold.
  destruct (connect _) as [[[]|e] w2]; reflexivity.
Qed.

Lemma timer_connect_uninterrupted (fuel : nat) (w : world) :
  run_callback Reconnect w =
  try_catch (finish fuel TimerAtConnect ;; ret tt) (fun _ => ret tt) w.
Proof.
  unfold run_callback. unfold try_catch at 2. unfold bind at 1.
  rewrite finish_unfold. cbn [resume]. js_unfold.
  destruct (connect w) as [[[]|e] w2]; reflexivity.
Qed.

Lemma clearSession_uninterrupted (fuel : nat) (w : world) :
  (length (sessionFiles w) < fuel)%nat ->
  (r <- clearSession ;; ret (Some r)) w =
  (p <- clearSession_start ;; finish fuel p) w.
Proof.
  intros Hf. destruct fuel as [|fuel]; [lia |].
  destruct (disconnect_effects (set_log (log w ++ [LogClearing]) w))
    as (_ & _ & _ & _ & _ & Hs & _ & _ & _ & Hr).
  unfold result, exec in Hr, Hs. cbn [sessionFiles set_log] in Hs.
  unfold clearSession, clearSession_start. js_unfold. cbn [fst snd].
  destruct (disconnect _) as [[[]|e] w1]; [| discriminate]. cbn in Hs.
  cbn.
  unfold clear_failed, fs_readdir. js_unfold. cbn.
  destruct (fsError w1) as [e|]; [reflexivity |].
  match goal with |- context [remove_files _ ?x] => set (w2 := x) end.
  rewrite Hs.
  pose proof (clear_loop_finish (sessionFiles w) (sessionFiles w) fuel w2
                                ltac:(lia)) as H.
  destruct (clear_loop_waits (sessionFiles w) (sessionFiles w) w2)
    as (q & l & El).
  unfold bind at 1 in H. rewrite El in H |- *. cbn [finish_from] in H.
  rewrite H. unfold clear_failed, clear_tail. js_unfold.
  destruct (remove_files (sessionFiles w) w2) as [[[]|e] w3]; [| reflexivity].
  cbn. destruct (connect _) as [[[]|e] w4]; reflexivity.
Qed.

Lemma filter_andb {A} (f g : A -> bool) (l : list A) :
  List.filter g (List.filter f l) = List.filter (fun x => f x && g x) l.
Proof.
  induction l as [|x l IH]; [reflexivity |]. cbn.
  destruct (f x); cbn; [destruct (g x) |]; rewrite IH; reflexivity.
Qed.

Lemma filter_all {A} (f : A -> bool) (l : list A) :
  (forall x, In x l -> f x = true) -> List.filter f l = l.
Proof.
  induction l as [|x l IH]; intros H; [reflexivity |]. cbn.
  rewrite (H x (or_introl eq_refl)), IH; [reflexivity |].
  intros y Hy. apply H. now right.
Qed.

(** The loop of [clearSession()]: it removes the files in order and
    stops at the first removal that is refused. *)
Lemma remove_files_exact (files : list string) (w : world) :
  let gone := removed_before (rmError w) files in
  remove_files files w =
  (match first_refused (rmError w) files with
   | Some (_, e) => Threw e
   | None => Returned tt
   end,
   set_log (log w ++ map LogDeletedFile gone)
     (set_sessionFiles
        (List.filter (fun f => negb (existsb (String.eqb f) gone))
                     (sessionFiles w)) w)).
Proof.
  revert w. induction files as [|f files IH]; intros w; cbn zeta.
  - cbn. rewrite app_nil_r, filter_all by (intros; reflexivity). destruct w; reflexivity.
  - cbn [remove_files first_refused removed_before].
    destruct (String.eqb f ".gitkeep") eqn:Eg; cbn [negb when].
    + unfold bind, ret. apply IH.
    + unfold bind at 1 2. unfold fs_rm.
      destruct (rmError w f) as [e|] eqn:Er.
      * cbn. rewrite app_nil_r, filter_all by (intros; reflexivity).
        destruct w; reflexivity.
      * cbn [logger modify]. rewrite IH. cbn.
        rewrite filter_andb, <- app_assoc. f_equal.
        unfold set_sessionFiles, set_log. cbn.
        rewrite (filter_ext
                   (fun x => negb (String.eqb x f
                                   || existsb (String.eqb x)
                                        (removed_before (rmError w) files)))
                   (fun x => negb (String.eqb x f)
                             && negb (existsb (String.eqb x)
                                        (removed_before (rmError w) files))));
          [reflexivity |].
        intros x. rewrite negb_orb. reflexivity.
Qed.





Lemma connect_effects (w : world) :
  makeSocketError w = None ->
  connect w =
  (Returned tt,
   set_this (set_socket (Some (length (handles w))) (this w))
            (set_handles (handles w ++ [Pending]) w)).
Proof.
  intros He. unfold connect, makeWASocket. js_unfold. rewrite He. reflexivity.
Qed.

Lemma connect_fails (w : world) (e : js_error) :
  makeSocketError w = Some e ->
  connect w = (Threw e, set_log (log w ++ [LogConnectionError e]) w).
Proof.
  intros He. unfold connect, makeWASocket. js_unfold. rewrite He. reflexivity.
Qed.

Lemma forceConnect_start_effects (w : world) :
  let w' := exec forceConnect_start w in
  result forceConnect_start w = Returned ForceConnectAtConnect /\
  this w' =
    mkService None None false (end_attempts 0 w)
              (maxReconnectAttempts (this w)) (baseRetryDelay (this w))
              (end_lastAttempt 0 None w) (cooldownPeriod (this w)) /\
  handles w' = end_stored w /\
  timers w' = (timers w ++ end_timers 0 w)%list /\
  clock w' = clock w /\
  sent w' = sent w /\
  sessionFiles w' = sessionFiles w /\
  makeSocketError w' = makeSocketError w /\
  fsError w' = fsError w /\
  rmError w' = rmError w.
Proof.
  pose proof (resetConnection_effects (set_log (log w ++ [LogForcing]) w))
    as (H1 & H2 & H3 & H4 & H5 & H6 & H7 & H8 & H9 & Hr).
  unfold forceConnect_start, result, exec in *. unfold bind.
  cbn [logger modify].
  destruct (resetConnection _) as [[[]|e] w1]; [| discriminate].
  cbn in *. repeat split; assumption.
Qed.

Lemma clearSession_start_effects (w : world) :
  let w' := exec clearSession_start w in
  result clearSession_start w = Returned ClearSessionAtReaddir /\
  this w' =
    mkService None None false 0
              (maxReconnectAttempts (this w)) (baseRetryDelay (this w))
              None (cooldownPeriod (this w)) /\
  handles w' = end_stored w /\
  timers w' = (timers w ++ end_timers (connectionAttempts (this w)) w)%list /\
  clock w' = clock w /\
  sent w' = sent w /\
  sessionFiles w' = sessionFiles w /\
  makeSocketError w' = makeSocketError w /\
  fsError w' = fsError w /\
  rmError w' = rmError w.
Proof.
  pose proof (disconnect_effects (set_log (log w ++ [LogClearing]) w))
    as (H1 & H2 & H3 & H4 & H5 & H6 & H7 & H8 & H9 & Hr).
  unfold clearSession_start, result, exec in *. unfold bind.
  cbn [logger modify].
  destruct (disconnect _) as [[[]|e] w1]; [| discriminate].
  js_unfold. cbn in *. rewrite H1.
  unfold set_isConnected, set_qr, set_lastConnectionAttempt,
    set_connectionAttempts.
  destruct (socket (this w)) eqn:Es; cbn; rewrite ?Es;
    repeat split; assumption.
Qed.

Lemma forceConnect_split (w : world) :
  forceConnect w =
  (connect ;; logger LogForceInitiated) (exec forceConnect_start w).
Proof.
  pose proof (forceConnect_start_effects w) as (Hr & _).
  unfold forceConnect, forceConnect_start, result, exec in *. unfold bind in *.
  cbn [logger modify] in *.
  destruct (resetConnection _) as [[[]|e] w1]; [reflexivity | discriminate].
Qed.


(** [clearSession()] from [fs.readdir] on, with nothing in between. *)
Lemma clearSession_split (w : world) :
  (r <- clearSession ;; ret (Some r)) w =
  clear_failed (files <- fs_readdir ;; remove_files files ;; clear_tail files)
               (exec clearSession_start w).
Proof.
  pose proof (disconnect_effects (set_log (log w ++ [LogClearing]) w))
    as (_ & _ & _ & _ & _ & _ & _ & _ & _ & Hr).
  unfold result in Hr.
  unfold clearSession, clearSession_start, clear_failed, clear_tail, fs_readdir.
  js_unfold. cbn [fst snd].
  destruct (disconnect _) as [[[]|e] w1]; [| discriminate].
  cbn. destruct (fsError w1); [reflexivity |].
  match goal with |- context [remove_files ?f ?x] =>
    destruct (remove_files f x) as [[[]|e] w2] end; [| reflexivity].
  cbn. destruct (connect _) as [[[]|e] w3]; reflexivity.
Qed.

(** [clearSession()] from [fs.readdir] on, case by case. *)
Lemma clear_from_readdir (v : world) :
  clear_failed (files <- fs_readdir ;; remove_files files ;; clear_tail files) v =
  match fsError v with
  | Some e => (Threw e, set_log (log v ++ [LogClearFailed e]) v)
  | None =>
      let files := sessionFiles v in
      let gone := removed_before (rmError v) files in
      let v1 :=
        set_log (log v ++ map LogDeletedFile gone)
          (set_sessionFiles
             (List.filter (fun f => negb (existsb (String.eqb f) gone)) files)
             v) in
      match first_refused (rmError v) files with
      | Some (_, e) => (Threw e, set_log (log v1 ++ [LogClearFailed e]) v1)
      | None =>
          let v2 := set_log (log v1 ++ [LogCleared; LogStartingFresh]) v1 in
          match makeSocketError v with
          | Some e =>
              (Threw e,
               set_log (log v2 ++ [LogConnectionError e; LogClearFailed e]) v2)
          | None =>
              (Returned
                 (Some {| clear_success := true;
                          deletedFiles :=
                            List.filter
                              (fun f => negb (String.eqb f ".gitkeep")) files |}),
               set_this (set_socket (Some (length (handles v))) (this v))
                        (set_handles (handles v ++ [Pending]) v2))
          end
      end
  end.
Proof.
  unfold clear_failed, fs_readdir, try_catch. unfold bind at 1.
  destruct (fsError v) as [e|]; [reflexivity |].
  unfold bind at 1. rewrite remove_files_exact. cbn zeta.
  destruct (first_refused (rmError v) (sessionFiles v)) as [[f e]|];
    [reflexivity |].
  unfold clear_tail, connect, makeWASocket. js_unfold. cbn.
  destruct (makeSocketError v) as [e|]; cbn; rewrite <- ?app_assoc; reflexivity.
Qed.
















(* ------------------------------------------------------------------ *)
(** ** Runs without an operator *)

Lemma is_connection_true (c : connection_state) (u : update) :
  is_connection c u = true -> upd_connection u = Some c.
Proof.
  unfold is_connection.
  destruct (upd_connection u) as [[]|], c; congruence.
Qed.












(** C5, as stated, fails.  Sockets 0 to 3 each close once, with one
    [forceConnect()] after the first close: the count reaches the
    ceiling (2) while the [connect()] deferred by the close of socket 2
    is pending.  The close of socket 3 at the ceiling defers nothing and
    arms the cooldown; then time alone fires the pending [connect()]
    and socket 4 is made, with no call of [initialize()] or
    [forceConnect()]. *)
Lemma pending_connect_fires_after_ceiling :
  let lost := close_update (Some (PlainError "timed out")) in
  let reached :=
    run [Initialize; Wait 2000; Emit 0%nat lost;
         Wait 3000; ForceConnect;
         Wait 4000; Emit 1%nat lost;
         Wait 62000; Emit 2%nat lost;
         Wait 64000] (boot 1000) in
  let closed := step (Emit 3%nat lost) reached in
  let later := step (Wait 182000) closed in
  (connectionAttempts (this reached), maxReconnectAttempts (this reached))
  = (2, 2) /\
  handles reached = [Ended; Closed; Closed; Pending] /\
  count_action Reconnect (timers reached) = 1%nat /\
  count_action Reconnect (timers closed) = 1%nat /\
  lastConnectionAttempt (this closed) = Some 64000 /\
  handles closed = [Ended; Closed; Closed; Closed] /\
  forallb unattended [Wait 182000] = true /\
  handles later = [Ended; Closed; Closed; Closed; Pending] /\
  socket (this later) = Some 4%nat.
Proof. cbv zeta. repeat apply conj; vm_compute; reflexivity. Qed.



(** C7, as stated, fails.  Socket 0 is lost and a [connect()] is
    deferred; the operator restarts, socket 1 opens and is then logged
    out.  No [forceConnect()] and no [clearSession()] follows, and yet a
    new socket is made: by the [connect()] that was pending, when its
    delay has passed, or by a plain [initialize()]. *)
Lemma reconnection_after_logout_without_restart :
  let w :=
    run [Initialize; Wait 2000;
         Emit 0%nat (close_update (Some (PlainError "timed out")));
         Wait 3000; ForceConnect;
         Wait 4000; Emit 1%nat open_update; Wait 5000] (boot 1000) in
  let u := close_update (Some (Boom (Some 401) "Stream Errored (conflict)")) in
  let revoked := step (Emit 1%nat u) w in
  shouldReconnect u = false /\
  handles w = [Ended; Opened] /\
  handles revoked = [Ended; Closed] /\
  timers revoked = (timers w ++ [mkTimer 5000 120000 ExpireQR])%list /\
  count_action Reconnect (timers revoked) = 1%nat /\
  handles (step (Wait 62000) revoked) = [Ended; Closed; Pending] /\
  socket (this (step (Wait 62000) revoked)) = Some 2%nat /\
  handles (step Initialize revoked) = [Ended; Closed; Pending] /\
  socket (this (step Initialize revoked)) = Some 2%nat.
Proof. cbv zeta. repeat apply conj; vm_compute; reflexivity. Qed.

(* ------------------------------------------------------------------ *)
(** ** The pairing code *)

Lemma getQRCode_result (w : world) :
  result getQRCode w =
  if JS.truthy_str (qr (this w))
  then match qrRenderError w with
       | Some e => Threw e
       | None => Returned (Some (DataURL (default "" (qr (this w)))))
       end
  else Returned None.
Proof.
  unfold getQRCode, qrcode_toDataURL. js_unfold.
  destruct (JS.truthy_str (qr (this w))); cbn; [| reflexivity].
  destruct (qrRenderError w); reflexivity.
Qed.

Lemma run_timers_keeps_qr (fuel : nat) (t : Z) (w : world) :
  (forall tm, In tm (timers w) -> action tm = ExpireQR -> t < due tm) ->
  qr (this (run_timers fuel t w)) = qr (this w).
Proof.
  intros Hlate.
  apply (run_timers_invariant
           (fun w' =>
              qr (this w') = qr (this w) /\
              forall tm, In tm (timers w') -> action tm = ExpireQR -> t < due tm)
           t); [| auto].
  intros w' tm rest [Hq Hl] Hn Hd.
  assert (Ha : action tm = Reconnect).
  { destruct (action tm) eqn:E; [| reflexivity].
    assert (In tm (timers w')) by (apply (next_timer_In _ _ _ Hn); now left).
    specialize (Hl tm H E). lia. }
  split.
  - rewrite fire_cases, Ha. cbn zeta.
    destruct (makeSocketError w'); cbn; exact Hq.
  - rewrite fire_timers. intros x Hx. apply Hl.
    apply (next_timer_In _ _ _ Hn). now right.
Qed.

Lemma run_timers_expires_qr (fuel : nat) (t : Z) (w : world) (tm : timer) :
  (length (timers w) <= fuel)%nat ->
  isConnected (this w) = false ->
  In tm (timers w) -> action tm = ExpireQR -> due tm <= t ->
  qr (this (run_timers fuel t w)) = None.
Proof.
  intros Hf Hc Hin Ha Hd.
  assert (Hinv :
    isConnected (this (run_timers fuel t w)) = false /\
    (qr (this (run_timers fuel t w)) = None \/
     exists x, In x (timers (run_timers fuel t w)) /\
               action x = ExpireQR /\ due x <= t)).
  { apply (run_timers_invariant
             (fun w' =>
                isConnected (this w') = false /\
                (qr (this w') = None \/
                 exists x, In x (timers w') /\ action x = ExpireQR /\ due x <= t))
             t); [| eauto 6].
    intros w' m rest [Hc' Hq] Hn Hm.
    rewrite fire_timers.
    destruct (fire_steady m rest w') as (Hcs & _).
    split; [congruence |].
    rewrite fire_cases. cbn zeta.
    destruct Hq as [Hq | (x & Hx & Hxa & Hxd)].
    - left. destruct (action m); [rewrite Hc'; reflexivity |].
      destruct (makeSocketError w'); cbn; exact Hq.
    - apply (next_timer_In _ _ _ Hn) in Hx as [-> | Hx].
      + left. rewrite Hxa, Hc'. reflexivity.
      + right. eauto. }
  destruct Hinv as [_ [Hq | (x & Hx & _ & Hxd)]]; [exact Hq |].
  rewrite (run_timers_timers t fuel w Hf) in Hx.
  apply filter_In in Hx as [_ Hx]. unfold not_due in Hx.
  apply Z.ltb_lt in Hx. lia.
Qed.

(** C8 (amended). A ['close'] update does not clear the pairing code
    itself: it registers an expiry 120000 ms after the update (not
    after the code was issued).  If no expiry registered by an earlier
    close falls before that instant, then with no other event the code
    is retrievable by [getQRCode()] at every instant before it, and
    absent from it on.  An ['open'] update clears the code at once, and
    an expiry that fires while connected does nothing. *)
Theorem pairing_code_grace_window (w : world) (h : nat) (u : update) (t : Z) :
  (h < length (handles w))%nat ->
  upd_connection u = Some ConnClose ->
  JS.truthy_str (upd_qr u) = false ->
  (forall tm, In tm (timers w) -> action tm = ExpireQR ->
              clock w + 120000 <= due tm) ->
  let w' := exec (emit h u) w in
  qr (this w') = qr (this w) /\
  In (mkTimer (clock w) 120000 ExpireQR) (timers w') /\
  (t < clock w + 120000 ->
   qr (this (advance t w')) = qr (this w) /\
   result getQRCode (advance t w') = result getQRCode w) /\
  (clock w + 120000 <= t ->
   qr (this (advance t w')) = None /\
   result getQRCode (advance t w') = Returned None) /\
  (forall h2 u2 w2,
     (h2 < length (handles w2))%nat ->
     upd_connection u2 = Some ConnOpen ->
     let w3 := exec (emit h2 u2) w2 in
     qr (this w3) = None /\
     result getQRCode w3 = Returned None /\
     exec (run_callback ExpireQR) w3 = w3).
Proof.
  intros Hh Hc Hq Hlate. cbn zeta.
  assert (Hopen : forall h2 u2 w2,
            (h2 < length (handles w2))%nat ->
            upd_connection u2 = Some ConnOpen ->
            qr (this (exec (emit h2 u2) w2)) = None /\
            result getQRCode (exec (emit h2 u2) w2) = Returned None /\
            exec (run_callback ExpireQR) (exec (emit h2 u2) w2)
            = exec (emit h2 u2) w2).
  { intros h2 u2 w2 Hh2 Ho.
    assert (E : exec (emit h2 u2) w2 =
                exec (handleConnectionUpdate u2)
                     (set_handles (note_report h2 u2 (handles w2)) w2))
      by (unfold exec; rewrite (emit_registered h2 u2 w2 Hh2); reflexivity).
    rewrite E.
    destruct (handle_open u2 (set_handles (note_report h2 u2 (handles w2)) w2) Ho)
      as (Hc3 & Hq3 & _).
    split; [exact Hq3 |]. split.
    - rewrite getQRCode_result, Hq3. reflexivity.
    - rewrite run_callback_ExpireQR, Hc3. reflexivity. }
  pose proof (emit_registered h u w Hh) as Hemit.
  destruct (handle_close u (set_handles (note_report h u (handles w)) w) Hc)
    as (Hcon & Hqr & _ & _ & _ & Ht & _ & _ & _ & _ & _ & _ & _ & Hre).
  unfold exec at 1 2 3 4 5 6. unfold exec in Hcon, Hqr, Ht, Hre.
  rewrite Hemit. cbn in Hcon, Hqr, Ht, Hre.
  rewrite Hq in Hqr.
  set (w' := (handleConnectionUpdate u
                (set_handles (note_report h u (handles w)) w)).2) in *.
  assert (Hexp : In (mkTimer (clock w) 120000 ExpireQR) (timers w')).
  { rewrite Ht. apply in_or_app. right. now left. }
  split; [exact Hqr |]. split; [exact Hexp |].
  split; [| split].
  - intros Hbefore.
    assert (E : qr (this (advance t w')) = qr (this w)).
    { unfold advance. cbn. rewrite run_timers_keeps_qr; [exact Hqr |].
      intros tm Hin Ha. rewrite Ht in Hin.
      apply in_app_or in Hin as [Hin | Hin].
      - specialize (Hlate tm Hin Ha). lia.
      - destruct (shouldReconnect u
                  && (connectionAttempts (this w) <? maxReconnectAttempts (this w)));
          cbn in Hin; destruct Hin as [<- | Hin];
          try (unfold due; cbn; lia);
          try (destruct Hin as [<- | []]; discriminate Ha);
          try (destruct Hin). }
    split; [exact E |].
    rewrite !getQRCode_result, E.
    destruct (advance_steady t w') as (_ & _ & _ & _ & _ & _ & _ & Hr & _).
    rewrite Hr, Hre. reflexivity.
  - intros Hafter.
    assert (E : qr (this (advance t w')) = None).
    { unfold advance. cbn.
      apply (run_timers_expires_qr _ t w' (mkTimer (clock w) 120000 ExpireQR));
        [lia | exact Hcon | exact Hexp | reflexivity | unfold due; cbn; lia]. }
    split; [exact E |]. rewrite getQRCode_result, E. reflexivity.
  - exact Hopen.
Qed.

Lemma pairing_code_grace_window_witness :
  let w := run [Initialize; Emit 0%nat (qr_update "2@code"); Wait 11000]
               (boot 1000) in
  let u := close_update (Some (Boom (Some 408) "QR refs attempts ended")) in
  let w' := exec (emit 0%nat u) w in
  qr (this w') = Some "2@code" /\
  In (mkTimer 11000 120000 ExpireQR) (timers w') /\
  qr (this (advance 130999 w')) = Some "2@code" /\
  result getQRCode (advance 130999 w') = Returned (Some (DataURL "2@code")) /\
  qr (this (advance 131000 w')) = None /\
  result getQRCode (advance 131000 w') = Returned None.
Proof.
  destruct (pairing_code_grace_window
              (run [Initialize; Emit 0%nat (qr_update "2@code"); Wait 11000]
                   (boot 1000))
              0%nat
              (close_update (Some (Boom (Some 408) "QR refs attempts ended")))
              130999)
    as (Hq & Hin & Hbefore & _).
  - vm_compute. lia.
  - reflexivity.
  - reflexivity.
  - intros tm [].
  - destruct (pairing_code_grace_window
                (run [Initialize; Emit 0%nat (qr_update "2@code"); Wait 11000]
                     (boot 1000))
                0%nat
                (close_update (Some (Boom (Some 408) "QR refs attempts ended")))
                131000)
      as (_ & _ & _ & Hafter & _).
    + vm_compute. lia.
    + reflexivity.
    + reflexivity.
    + intros tm [].
    + destruct Hbefore as [Hb1 Hb2]; [vm_compute; reflexivity |].
      destruct Hafter as [Ha1 Ha2]; [vm_compute; discriminate |].
      repeat split; assumption.
Defined.

(** C8, as stated, fails in both directions, because the two minutes
    run from a ['close'] update and not from the instant T at which the
    code was stored.  First run: code stored at T = 1000, close at
    11000; at T + 121 s the code is still served (it goes at 131000).
    Second run: a close at 2000 registers an expiry for 122000; the
    socket made by the retry stores a new code at T = 63000 and closes at
    110000; the old expiry clears the new code at 122000, so that at
    T + 119 s = 182000 it is absent. *)
Lemma grace_window_not_counted_from_issue :
  let late :=
    run [Initialize; Emit 0%nat (qr_update "2@code"); Wait 11000;
         Emit 0%nat (close_update None)] (boot 1000) in
  let early :=
    run [Initialize; Wait 2000; Emit 0%nat (close_update None);
         Wait 63000; Emit 1%nat (qr_update "2@new"); Wait 110000;
         Emit 1%nat (close_update None)] (boot 1000) in
  result getQRCode (advance (1000 + 121000) late)
    = Returned (Some (DataURL "2@code")) /\
  result getQRCode (advance 130999 late) = Returned (Some (DataURL "2@code")) /\
  result getQRCode (advance 131000 late) = Returned None /\
  result getQRCode early = Returned (Some (DataURL "2@new")) /\
  result getQRCode (advance 121999 early) = Returned (Some (DataURL "2@new")) /\
  result getQRCode (advance 122000 early) = Returned None /\
  result getQRCode (advance (63000 + 119000) early) = Returned None.
Proof. repeat split; reflexivity. Qed.

(* ------------------------------------------------------------------ *)
(** ** Validation in front of the transport *)




(** C10. Validation and addressing read the digits of the destination
    only.  The request is refused exactly when [passes_validation]
    fails, and that test is made on the digits ([phoneRegex_test] of the
    destination with every non-digit removed), so ["a1b2c3d4e5"]
    passes.  When it succeeds, the message goes to the digits followed
    by ["@s.whatsapp.net"], and that address is the [to] of the answer.
    Two destinations with the same digits are both refused or both
    passed on, and then get the same answer from the same call of the
    socket. *)
Theorem dispatcher_reads_digits_only (d1 d2 : string) (m : option string)
    (w : world) :
  JS.replace_non_digits d1 = JS.replace_non_digits d2 ->
  let r1 := post_message (Some d1) m w in
  let r2 := post_message (Some d2) m w in
  is_bad_request (fst r1) =
    negb (JS.truthy_str m && phoneRegex_test (JS.replace_non_digits d1)) /\
  is_bad_request (fst r1) = is_bad_request (fst r2) /\
  (is_bad_request (fst r1) = false -> fst r1 = fst r2) /\
  sent (snd r1) = sent (snd r2) /\
  this (snd r1) = this (snd r2) /\
  (forall data,
     fst r1 = Returned (Created data) ->
     to data = JS.replace_non_digits d1 ++ "@s.whatsapp.net" /\
     exists h,
       socket (this w) = Some h /\
       sent (snd r1) = (sent w ++ [mkCall h (to data) (default "" m)])%list) /\
  is_bad_request (result (post_message (Some "a1b2c3d4e5") (Some "hello")) w)
    = false.
Proof.
  intros Hd. cbn zeta.
  pose proof (post_message_bad_request_iff (Some d1) m w) as Hb1.
  pose proof (post_message_bad_request_iff (Some d2) m w) as Hb2.
  pose proof (passes_validation_digits d1 d2 m Hd) as Hpv.
  unfold result in Hb1, Hb2.
  assert (Hpv1 : passes_validation (Some d1) m =
                 JS.truthy_str m && phoneRegex_test (JS.replace_non_digits d1)).
  { unfold passes_validation, default. cbn [from_option id].
    destruct (phoneRegex_test (JS.replace_non_digits d1)) eqn:Hre.
    - rewrite (truthy_of_regex d1 Hre). reflexivity.
    - rewrite !andb_false_r. reflexivity. }
  split; [rewrite Hb1, Hpv1; reflexivity |].
  split; [rewrite Hb1, Hb2, Hpv; reflexivity |].
  assert (Hsame : passes_validation (Some d1) m = true ->
                  fst (post_message (Some d1) m w) = fst (post_message (Some d2) m w) /\
                  sent (snd (post_message (Some d1) m w))
                  = sent (snd (post_message (Some d2) m w)) /\
                  this (snd (post_message (Some d1) m w))
                  = this (snd (post_message (Some d2) m w))).
  { intros Hv. rewrite (post_message_passes _ _ w Hv).
    rewrite Hpv in Hv. rewrite (post_message_passes _ _ w Hv).
    change (default "" (Some d1)) with d1.
    change (default "" (Some d2)) with d2.
    unfold try_catch, bind.
    rewrite (sendMessage_digits d1 d2 _ w Hd).
    match goal with |- context [sendMessage d2 ?x w] =>
      destruct (sendMessage d2 x w) as [[r|e] w1] end;
      cbn; [repeat split; reflexivity |].
    destruct (JS.includes _ _); cbn; repeat split; reflexivity. }
  split.
  { intros Hnb. rewrite Hb1 in Hnb. apply negb_false_iff in Hnb.
    apply Hsame. exact Hnb. }
  destruct (passes_validation (Some d1) m) eqn:Hv1.
  - destruct (Hsame eq_refl) as (_ & Hs & Ht).
    split; [exact Hs |]. split; [exact Ht |].
    split; [| rewrite post_message_bad_request_iff; reflexivity].
    intros data Hdata. apply (post_message_created (Some d1) m w data Hdata).
  - destruct (post_message_rejects (Some d1) m w Hv1) as (_ & Ht1 & Hs1 & _).
    symmetry in Hpv.
    destruct (post_message_rejects (Some d2) m w Hpv) as (_ & Ht2 & Hs2 & _).
    unfold exec in *.
    split; [congruence |]. split; [congruence |].
    split; [| rewrite post_message_bad_request_iff; reflexivity].
    intros data Hdata. apply (post_message_created (Some d1) m w data Hdata).
Qed.

Lemma dispatcher_reads_digits_only_witness :
  let w := run [Initialize; Emit 0%nat open_update] (boot 1000) in
  let r1 := post_message (Some "+1 (234) 567-890") (Some "hello") w in
  let r2 := post_message (Some "x1234567890") (Some "hello") w in
  fst r1 = Returned (Created {| success := true;
                                messageId := "3EB0";
                                to := "1234567890@s.whatsapp.net" |}) /\
  fst r1 = fst r2 /\
  sent (snd r1) = sent (snd r2) /\
  sent (snd r1) = [mkCall 0 "1234567890@s.whatsapp.net" "hello"].
Proof.
  destruct (dispatcher_reads_digits_only
              "+1 (234) 567-890" "x1234567890" (Some "hello")
              (run [Initialize; Emit 0%nat open_update] (boot 1000)))
    as (_ & _ & Hsame & Hsent & _).
  - reflexivity.
  - split; [reflexivity |]. split; [apply Hsame; reflexivity |].
    split; [exact Hsent | reflexivity].
Defined.

(* ------------------------------------------------------------------ *)
(** ** The count of attempts over whole runs *)

Lemma post_message_this (p m : option string) (w : world) :
  this (exec (post_message p m) w) = this w /\
  handles (exec (post_message p m) w) = handles w /\
  timers (exec (post_message p m) w) = timers w.
Proof.
  destruct (passes_validation p m) eqn:Hv.
  - unfold exec. rewrite (post_message_passes p m w Hv).
    unfold sendMessage, socket_sendMessage. js_unfold.
    destruct (isConnected (this w)); cbn.
    + destruct (socket (this w)); cbn.
      * destruct (sendAnswer w) as [e|id]; cbn; [| auto].
        destruct (JS.includes _ _); auto.
      * auto.
    + auto.
  - destruct (post_message_rejects p m w Hv) as (_ & H1 & _ & H2 & H3). auto.
Qed.

(** [connect()] writes [socket] and nothing else of the service. *)
Lemma connect_this (w : world) :
  this (exec connect w) = this w \/
  this (exec connect w) = set_socket (Some (length (handles w))) (this w).
Proof.
  destruct (makeSocketError w) as [e|] eqn:He; unfold exec.
  - rewrite (connect_fails w e He). left. reflexivity.
  - rewrite (connect_effects w He). right. reflexivity.
Qed.

(** The service after [clearSession()], whichever way it ends. *)
Lemma clearSession_this (w : world) :
  let s := this (exec clearSession w) in
  qr s = None /\
  isConnected s = false /\
  connectionAttempts s = 0 /\
  lastConnectionAttempt s = None /\
  maxReconnectAttempts s = maxReconnectAttempts (this w) /\
  baseRetryDelay s = baseRetryDelay (this w) /\
  cooldownPeriod s = cooldownPeriod (this w).
Proof.
  destruct (clearSession_start_effects w) as (_ & Ht & _).
  pose proof (clearSession_split w) as E.
  rewrite clear_from_readdir in E.
  remember (exec clearSession_start w) as w1 eqn:Ew1.
  assert (H : this (snd ((r <- clearSession ;; ret (Some r)) w))
              = this (exec clearSession w)).
  { unfold exec, bind. destruct (clearSession w) as [[r|e] w2]; reflexivity. }
  cbn zeta. rewrite <- H, E.
  destruct (fsError w1); [cbn; rewrite Ht; cbn; auto 10 |].
  cbn zeta.
  destruct (first_refused _ _) as [[f e]|]; [cbn; rewrite Ht; cbn; auto 10 |].
  destruct (makeSocketError w1); cbn; rewrite Ht; cbn; auto 10.
Qed.

(** The counters after [forceConnect()], whichever way it ends. *)
Lemma forceConnect_this (w : world) :
  let s := this (exec forceConnect w) in
  qr s = None /\
  isConnected s = false /\
  connectionAttempts s = end_attempts 0 w /\
  lastConnectionAttempt s = end_lastAttempt 0 None w /\
  maxReconnectAttempts s = maxReconnectAttempts (this w) /\
  baseRetryDelay s = baseRetryDelay (this w) /\
  cooldownPeriod s = cooldownPeriod (this w).
Proof.
  destruct (forceConnect_start_effects w) as (_ & Ht & _).
  cbn zeta. unfold exec at 1 2 3 4 5 6 7. rewrite forceConnect_split.
  remember (exec forceConnect_start w) as w1 eqn:Ew1. unfold bind.
  destruct (makeSocketError w1) as [e|] eqn:He.
  - rewrite (connect_fails w1 e He). cbn. rewrite Ht. cbn. auto 10.
  - rewrite (connect_effects w1 He). cbn. rewrite Ht. cbn. auto 10.
Qed.

Lemma step_keeps_attempts_in_range (i : input) (w : world) :
  attempts_in_range w ->
  attempts_in_range (step i w) /\ same_config w (step i w).
Proof.
  unfold attempts_in_range, same_config. intros Hr.
  destruct i as [| | | | | p m | h u | t]; cbn [step].
  - (* initialize *)
    unfold initialize, connect, makeWASocket. js_unfold.
    destruct (JS.truthy_num (lastConnectionAttempt (this w))
              && (clock w - default 0 (lastConnectionAttempt (this w))
                  <? cooldownPeriod (this w))); cbn; [auto |].
    destruct (makeSocketError w); cbn; auto.
  - (* resetConnection *)
    destruct (resetConnection_effects w) as (Ht & _). rewrite Ht. cbn.
    unfold end_attempts.
    destruct (stored_live w); cbn;
      [destruct (Z.ltb_spec 0 (maxReconnectAttempts (this w))) |];
      repeat split; lia.
  - (* disconnect *)
    destruct (disconnect_effects w) as (Ht & _). rewrite Ht.
    destruct (socket (this w)); cbn; [| auto].
    unfold end_attempts.
    destruct (stored_live w); cbn;
      [destruct (Z.ltb_spec (connectionAttempts (this w))
                            (maxReconnectAttempts (this w))) |];
      repeat split; lia.
  - (* forceConnect *)
    destruct (forceConnect_this w) as (_ & _ & Ha & _ & Hm & Hb & Hc).
    rewrite Ha, Hm, Hb, Hc. unfold end_attempts.
    destruct (stored_live w); cbn;
      [destruct (Z.ltb_spec 0 (maxReconnectAttempts (this w))) |];
      repeat split; lia.
  - (* clearSession *)
    destruct (clearSession_this w) as (_ & _ & Ha & _ & Hm & Hb & Hc).
    rewrite Ha, Hm, Hb, Hc. repeat split; lia.
  - (* POST /message *)
    destruct (post_message_this p m w) as (Ht & _). rewrite Ht. auto.
  - (* connection.update *)
    unfold exec.
    destruct (Nat.lt_ge_cases h (length (handles w))) as [Hlt | Hge];
      [| rewrite emit_unregistered by exact Hge; cbn; auto].
    rewrite emit_registered by exact Hlt.
    set (w2 := set_handles (note_report h u (handles w)) w).
    destruct (upd_connection u) as [[]|] eqn:Hc.
    + destruct (handle_other u w2) as (Ht & _);
        [unfold is_connection; rewrite Hc; reflexivity .. |].
      unfold exec in Ht. rewrite Ht. cbn.
      destruct (JS.truthy_str (upd_qr u)); cbn; auto.
    + assert (E : forall f : service -> Z,
                (f = maxReconnectAttempts \/ f = baseRetryDelay
                 \/ f = cooldownPeriod) ->
                f (this (handleConnectionUpdate u w2).2) = f (this w)).
      { intros f Hf. unfold w2, handleConnectionUpdate, is_connection.
        rewrite Hc. js_unfold.
        destruct (JS.truthy_str (upd_qr u)); cbn;
          destruct Hf as [-> | [-> | ->]]; reflexivity. }
      destruct (handle_open u w2 Hc) as (_ & _ & Ha & _).
      unfold exec in Ha. rewrite Ha, !E by auto. repeat split; lia.
    + destruct (handle_close u w2 Hc)
        as (_ & _ & _ & Ha & _ & _ & Hm & Hb & Hcd & _).
      unfold exec in *. cbn in Ha, Hm, Hb, Hcd. rewrite Ha, Hm, Hb, Hcd.
      destruct (shouldReconnect u); cbn;
        [destruct (Z.ltb_spec (connectionAttempts (this w))
                              (maxReconnectAttempts (this w))) |];
        repeat split; lia.
    + destruct (handle_other u w2) as (Ht & _);
        [unfold is_connection; rewrite Hc; reflexivity .. |].
      unfold exec in Ht. rewrite Ht. cbn.
      destruct (JS.truthy_str (upd_qr u)); cbn; auto.
  - (* time *)
    destruct (advance_steady t w) as (_ & Ha & Hm & Hb & _ & Hcd & _).
    rewrite Ha, Hm, Hb, Hcd. auto.
Qed.

(** X1. Whatever the operator, the sockets and the clock do, the count
    of attempts stays between 0 and the ceiling, and the three numbers
    read at construction never change. *)
Theorem attempts_never_exceed_ceiling (trace : list input) (w : world) :
  attempts_in_range w ->
  attempts_in_range (run trace w) /\ same_config w (run trace w).
Proof.
  revert w. induction trace as [|i trace IH]; intros w Hr.
  - split; [exact Hr | repeat split].
  - change (run (i :: trace) w) with (run trace (step i w)).
    destruct (step_keeps_attempts_in_range i w Hr) as (Hr1 & Hm & Hb & Hc).
    destruct (IH (step i w) Hr1) as (Hr2 & Hm2 & Hb2 & Hc2).
    split; [exact Hr2 |]. unfold same_config. repeat split; congruence.
Qed.

Lemma attempts_never_exceed_ceiling_witness :
  let trace :=
    [Initialize; Emit 0%nat (close_update None); Emit 0%nat (close_update None);
     Emit 0%nat (close_update None); Wait 200000; ForceConnect;
     Emit 3%nat open_update; PostMessage (Some "+1234567890") (Some "hi");
     Emit 3%nat (close_update None); ClearSession; Disconnect] in
  attempts_in_range (run trace (boot 1000)) /\
  same_config (boot 1000) (run trace (boot 1000)).
Proof.
  apply (attempts_never_exceed_ceiling
           [Initialize; Emit 0%nat (close_update None);
            Emit 0%nat (close_update None);
            Emit 0%nat (close_update None); Wait 200000; ForceConnect;
            Emit 3%nat open_update; PostMessage (Some "+1234567890") (Some "hi");
            Emit 3%nat (close_update None); ClearSession; Disconnect]
           (boot 1000)).
  unfold attempts_in_range. cbn. lia.
Defined.

Lemma retrying_close_step (n : nat) (i : input) (w : world) :
  retrying_close n i = true ->
  n = length (handles w) ->
  attempts_in_range w ->
  let a := connectionAttempts (this w) in
  let retry := a <? maxReconnectAttempts (this w) in
  connectionAttempts (this (step i w)) = (if retry then a + 1 else a) /\
  count_action Reconnect (timers (step i w)) =
    ((if retry then 1 else 0) + count_action Reconnect (timers w))%nat /\
  length (handles (step i w)) = length (handles w) /\
  maxReconnectAttempts (this (step i w)) = maxReconnectAttempts (this w).
Proof.
  intros Hi -> Hr. destruct i as [| | | | | ? ? | h u | ?]; try discriminate.
  cbn [retrying_close] in Hi.
  apply andb_prop in Hi as [Hi Hs]. apply andb_prop in Hi as [Hh Hc].
  apply Nat.ltb_lt in Hh. apply is_connection_true in Hc.
  cbn [step]. cbn zeta. unfold exec. rewrite (emit_registered h u w Hh).
  destruct (handle_close u (set_handles (note_report h u (handles w)) w) Hc)
    as (_ & _ & _ & Ha & _ & Ht & Hm & _ & _ & Hhs & _).
  unfold exec in *. cbn in Ha, Ht, Hm, Hhs. rewrite Hs in Ha, Ht. cbn in Ha, Ht.
  rewrite Ha, Ht, Hm, Hhs, note_report_length, count_action_app,
    count_action_cons.
  destruct (connectionAttempts (this w) <? maxReconnectAttempts (this w));
    repeat split; try reflexivity.
  - rewrite count_action_cons. change (count_action Reconnect []) with 0%nat.
    cbn. lia.
  - change (count_action Reconnect []) with 0%nat. cbn. lia.
Qed.

(** X2. Between two ['open'] updates at most [maxReconnectAttempts]
    reconnections are deferred: after any number [n] of ['close']
    updates that are not logouts, the count is
    [min (count + n, maxReconnectAttempts)] and the number of
    [connect()] timers registered is the growth of the count. *)
Theorem closes_defer_at_most_ceiling (trace : list input) (w : world) :
  forallb (retrying_close (length (handles w))) trace = true ->
  attempts_in_range w ->
  let a := connectionAttempts (this w) in
  let a' := Z.min (a + Z.of_nat (length trace)) (maxReconnectAttempts (this w)) in
  connectionAttempts (this (run trace w)) = a' /\
  count_action Reconnect (timers (run trace w)) =
    (count_action Reconnect (timers w) + Z.to_nat (a' - a))%nat /\
  (Z.to_nat (a' - a) <= Z.to_nat (maxReconnectAttempts (this w)))%nat.
Proof.
  revert w. induction trace as [|i trace IH]; intros w Hall Hr.
  - unfold attempts_in_range in Hr. cbn. repeat split; try lia.
  - cbn [forallb] in Hall. apply andb_prop in Hall as [Hi Hall].
    destruct (retrying_close_step _ i w Hi eq_refl Hr) as (Ha & Hc & Hl & Hm).
    destruct (step_keeps_attempts_in_range i w Hr) as (Hr1 & _).
    change (run (i :: trace) w) with (run trace (step i w)).
    destruct (IH (step i w)) as (Ha' & Hc' & _);
      [rewrite Hl; exact Hall | exact Hr1 |].
    cbn zeta in *. rewrite Ha', Hc', Ha, Hc, Hm.
    unfold attempts_in_range in Hr. cbn [length].
    destruct (Z.ltb_spec (connectionAttempts (this w))
                         (maxReconnectAttempts (this w)));
      repeat split; lia.
Qed.

Lemma closes_defer_at_most_ceiling_witness :
  let w := exec connect (boot 1000) in
  let trace := repeat (Emit 0%nat (close_update (Some (PlainError "lost")))) 5 in
  connectionAttempts (this (run trace w)) = 2 /\
  count_action Reconnect (timers (run trace w)) = 2%nat.
Proof.
  destruct (closes_defer_at_most_ceiling
              (repeat (Emit 0%nat (close_update (Some (PlainError "lost")))) 5)
              (exec connect (boot 1000)))
    as (Ha & Hc & _).
  - reflexivity.
  - unfold attempts_in_range. cbn. lia.
  - split; [exact Ha | exact Hc].
Defined.

Lemma handle_open_frame (u : update) (w : world) :
  upd_connection u = Some ConnOpen ->
  let w' := exec (handleConnectionUpdate u) w in
  maxReconnectAttempts (this w') = maxReconnectAttempts (this w) /\
  baseRetryDelay (this w') = baseRetryDelay (this w) /\
  cooldownPeriod (this w') = cooldownPeriod (this w) /\
  clock w' = clock w.
Proof.
  intros Hc. unfold handleConnectionUpdate, is_connection. rewrite Hc.
  js_unfold.
  destruct (JS.truthy_str (upd_qr u)); cbn; repeat split; reflexivity.
Qed.

(** X3. An ['open'] update restarts the backoff from any state, the
    ceiling included: it sets the count to 0, clears the pairing code
    and marks the service connected; the next ['close'] that is not
    a logout then defers [connect()] by one [baseRetryDelay] (when the
    ceiling is positive). *)
Theorem open_restarts_backoff (w : world) (h h' : nat) (uo uc : update) :
  (h < length (handles w))%nat ->
  (h' < length (handles w))%nat ->
  upd_connection uo = Some ConnOpen ->
  upd_connection uc = Some ConnClose ->
  shouldReconnect uc = true ->
  0 < maxReconnectAttempts (this w) ->
  let w1 := exec (emit h uo) w in
  let w2 := exec (emit h' uc) w1 in
  isConnected (this w1) = true /\
  qr (this w1) = None /\
  connectionAttempts (this w1) = 0 /\
  timers w1 = timers w /\
  connectionAttempts (this w2) = 1 /\
  timers w2 =
    (timers w ++ [mkTimer (clock w) 120000 ExpireQR;
                  mkTimer (clock w) (baseRetryDelay (this w) * 1) Reconnect])%list.
Proof.
  intros Hh Hh' Ho Hc Hs Hmax. cbn zeta.
  assert (E1 : exec (emit h uo) w =
               exec (handleConnectionUpdate uo)
                    (set_handles (note_report h uo (handles w)) w))
    by (unfold exec; rewrite (emit_registered h uo w Hh); reflexivity).
  destruct (handle_open uo (set_handles (note_report h uo (handles w)) w) Ho)
    as (Hc1 & Hq1 & Ha1 & _ & _ & Ht1 & Hh1).
  destruct (handle_open_frame uo (set_handles (note_report h uo (handles w)) w) Ho)
    as (Hm1 & Hb1 & _ & Hk1).
  rewrite <- E1 in Hc1, Hq1, Ha1, Ht1, Hh1, Hm1, Hb1, Hk1.
  cbn in Ht1, Hh1, Hm1, Hb1, Hk1.
  do 4 (split; [assumption |]).
  assert (Hh1' : (h' < length (handles (exec (emit h uo) w)))%nat)
    by (rewrite Hh1, note_report_length; exact Hh').
  remember (exec (emit h uo) w) as W1 eqn:EW1. clear EW1 E1.
  assert (E2 : exec (emit h' uc) W1 =
               exec (handleConnectionUpdate uc)
                    (set_handles (note_report h' uc (handles W1)) W1))
    by (unfold exec; rewrite (emit_registered h' uc W1 Hh1'); reflexivity).
  rewrite E2.
  destruct (handle_close uc (set_handles (note_report h' uc (handles W1)) W1) Hc)
    as (_ & _ & _ & Ha2 & _ & Ht2 & _).
  cbn in Ha2, Ht2.
  rewrite Hs, Ha1, Hm1 in Ha2. rewrite Hs, Ha1, Hm1, Hb1, Hk1, Ht1 in Ht2.
  destruct (Z.ltb_spec 0 (maxReconnectAttempts (this w))); [| lia].
  cbn in Ha2, Ht2. split; assumption.
Qed.

Lemma open_restarts_backoff_witness :
  let w := run [Initialize; Emit 0%nat (close_update None); Wait 61000;
                Emit 1%nat (close_update None); Wait 190000] (boot 1000) in
  let w1 := exec (emit 2%nat open_update) w in
  let w2 := exec (emit 2%nat (close_update None)) w1 in
  connectionAttempts (this w) = 2 /\
  isConnected (this w1) = true /\
  connectionAttempts (this w1) = 0 /\
  connectionAttempts (this w2) = 1 /\
  timers w2 = [mkTimer 190000 120000 ExpireQR; mkTimer 190000 60000 Reconnect].
Proof.
  destruct (open_restarts_backoff
              (run [Initialize; Emit 0%nat (close_update None); Wait 61000;
                    Emit 1%nat (close_update None); Wait 190000] (boot 1000))
              2%nat 2%nat open_update (close_update None))
    as (Hc & _ & Ha & _ & Ha2 & Ht2).
  - vm_compute. lia.
  - vm_compute. lia.
  - reflexivity.
  - reflexivity.
  - reflexivity.
  - vm_compute. reflexivity.
  - split; [reflexivity |]. repeat split; assumption.
Defined.


(* ------------------------------------------------------------------ *)
(** ** Reset, disconnect, forced connection and the status *)








Lemma initialize_refuses (w : world) :
  in_cooldown w = true ->
  initialize w =
  (Returned tt,
   set_log
     (log w ++
      [LogCooldownWait
         (JS.ceil_div
            (cooldownPeriod (this w)
             - (clock w - default 0 (lastConnectionAttempt (this w)))) 1000);
       LogCooldownEndsAt
         (default 0 (lastConnectionAttempt (this w)) + cooldownPeriod (this w))])
     w).
Proof.
  unfold in_cooldown. intros H. unfold initialize. js_unfold. rewrite H. cbn.
  rewrite <- app_assoc. reflexivity.
Qed.

Lemma advance_clock (t : Z) (w : world) :
  clock (advance t w) = Z.max (clock w) t.
Proof.
  unfold advance. cbn.
  assert (H : clock w <= clock (run_timers (length (timers w)) t w)
              <= Z.max (clock w) t).
  { apply (run_timers_invariant
             (fun w' => clock w <= clock w' <= Z.max (clock w) t) t); [| lia].
    intros w' tm rest Hc _ Hd. rewrite fire_cases. cbn zeta.
    destruct (action tm);
      [destruct (isConnected (this w')) | destruct (makeSocketError w')];
      cbn; lia. }
  lia.
Qed.

(** X7. An [initialize()] that is not refused records the attempt before
    it connects, so the cooldown is armed even when the socket cannot be
    made (the error is then thrown to the caller).  Any [initialize()]
    that follows within [cooldownPeriod] is refused: it returns without
    making a socket and without touching the service. *)
Theorem initialize_arms_cooldown (w : world) (t : Z) :
  in_cooldown w = false ->
  clock w <> 0 ->
  clock w <= t ->
  t - clock w < cooldownPeriod (this w) ->
  let w1 := exec initialize w in
  let w2 := advance t w1 in
  lastConnectionAttempt (this w1) = Some (clock w) /\
  result initialize w =
    match makeSocketError w with
    | Some e => Threw e
    | None => Returned tt
    end /\
  (makeSocketError w <> None -> handles w1 = handles w) /\
  in_cooldown w2 = true /\
  result initialize w2 = Returned tt /\
  handles (exec initialize w2) = handles w2 /\
  this (exec initialize w2) = this w2.
Proof.
  intros Hc Hz Hle Hlt. cbn zeta.
  assert (H1 : lastConnectionAttempt (this (exec initialize w)) = Some (clock w)
               /\ cooldownPeriod (this (exec initialize w)) = cooldownPeriod (this w)
               /\ clock (exec initialize w) = clock w
               /\ result initialize w =
                  match makeSocketError w with
                  | Some e => Threw e
                  | None => Returned tt
                  end
               /\ (makeSocketError w <> None ->
                   handles (exec initialize w) = handles w)).
  { unfold in_cooldown in Hc. unfold initialize, connect, makeWASocket.
    js_unfold. rewrite Hc. cbn.
    destruct (makeSocketError w); cbn; repeat split; congruence. }
  destruct H1 as (Hl & Hcd & Hk & Hres & Hh).
  do 3 (split; [assumption |]).
  assert (Hcool : in_cooldown (advance t (exec initialize w)) = true).
  { destruct (advance_steady t (exec initialize w))
      as (_ & _ & _ & _ & Hl2 & Hcd2 & _).
    unfold in_cooldown. rewrite Hl2, Hcd2, Hl, Hcd, advance_clock, Hk. cbn.
    destruct (Z.eqb_spec (clock w) 0); [contradiction |]. cbn.
    apply Z.ltb_lt. lia. }
  split; [exact Hcool |].
  pose proof (initialize_refuses _ Hcool) as E.
  remember (advance t (exec initialize w)) as W2 eqn:EW2. clear EW2.
  unfold result, exec. rewrite E. cbn. repeat split; reflexivity.
Qed.

Lemma initialize_arms_cooldown_witness :
  let w := set_clock 5000 (exec resetConnection (boot 1000)) in
  let broken :=
    mkWorld (this w) (clock w) (timers w) (handles w) (sent w) (sessionFiles w)
            (Some (PlainError "ENOENT")) (sendAnswer w) (fsError w)
            (rmError w) (qrRenderError w) (log w) in
  result initialize broken = Threw (PlainError "ENOENT") /\
  lastConnectionAttempt (this (exec initialize broken)) = Some 5000 /\
  handles (exec initialize broken) = [] /\
  in_cooldown (advance 304999 (exec initialize broken)) = true /\
  result initialize (advance 304999 (exec initialize broken)) = Returned tt.
Proof.
  destruct (initialize_arms_cooldown
              (mkWorld (this (set_clock 5000 (exec resetConnection (boot 1000))))
                       5000 [] [] [] [".gitkeep"]
                       (Some (PlainError "ENOENT")) (inr "3EB0") None
                       (fun _ => None) None
                       [LogResetting; LogResetDone])
              304999)
    as (Hl & Hr & Hh & Hc & Hr2 & _).
  - reflexivity.
  - cbn. lia.
  - cbn. lia.
  - cbn. lia.
  - split; [exact Hr |]. split; [exact Hl |].
    split; [apply Hh; discriminate |]. split; assumption.
Defined.

(** X8. The status read and [initialize()] agree on the cooldown:
    [inCooldown] of [getDetailedStatus()] is true exactly when
    [initialize()] would refuse, and then the seconds it reports and
    the end it reports are those [initialize()] logs.  The seconds are
    never negative. *)
Theorem status_agrees_with_initialize (w : world) :
  ds_inCooldown (getDetailedStatus w) = in_cooldown w /\
  0 <= ds_cooldownRemaining (getDetailedStatus w) /\
  (in_cooldown w = true ->
   0 < ds_cooldownRemaining (getDetailedStatus w) /\
   exists ends,
     ds_cooldownEndsAt (getDetailedStatus w) = Some ends /\
     log (exec initialize w) =
       (log w ++ [LogCooldownWait (ds_cooldownRemaining (getDetailedStatus w));
                  LogCooldownEndsAt ends])%list).
Proof.
  unfold getDetailedStatus, in_cooldown. cbn.
  destruct (JS.truthy_num (lastConnectionAttempt (this w))) eqn:Ht; cbn.
  - set (x := cooldownPeriod (this w)
              - (clock w - default 0 (lastConnectionAttempt (this w)))).
    split; [| split].
    + destruct (Z.ltb_spec 0 (Z.max 0 x));
        destruct (Z.ltb_spec
                    (clock w - default 0 (lastConnectionAttempt (this w)))
                    (cooldownPeriod (this w))); try reflexivity; lia.
    + pose proof (ceil_div_bounds (Z.max 0 x) 1000 ltac:(lia)). lia.
    + intros Hc. apply Z.ltb_lt in Hc.
      assert (Hx : Z.max 0 x = x) by lia. rewrite Hx.
      split; [pose proof (ceil_div_bounds x 1000 ltac:(lia)); lia |].
      eexists. split; [reflexivity |].
      unfold exec. rewrite initialize_refuses.
      * reflexivity.
      * unfold in_cooldown. rewrite Ht. cbn. apply Z.ltb_lt. lia.
  - split; [reflexivity |]. split; [vm_compute; discriminate | discriminate].
Qed.

Lemma status_agrees_with_initialize_witness :
  let w := run [Initialize; Wait 5000] (boot 1000) in
  ds_inCooldown (getDetailedStatus w) = true /\
  ds_cooldownRemaining (getDetailedStatus w) = 296 /\
  log (exec initialize w) =
    (log w ++ [LogCooldownWait 296; LogCooldownEndsAt 301000])%list.
Proof.
  destruct (status_agrees_with_initialize
              (run [Initialize; Wait 5000] (boot 1000)))
    as (Hc & _ & Hin).
  destruct (Hin eq_refl) as (_ & ends & He & Hl).
  split; [exact Hc |]. split; [reflexivity |].
  injection He as <-. exact Hl.
Defined.

(* ------------------------------------------------------------------ *)
(** ** clearSession and the session folder *)




(** X10. While the service is not connected no request reaches the
    socket: [POST /message] answers 503 to a request that passes its
    validation, and [POST /webhook/notify] answers 500 with the message
    of the error to a request with the right secret and both fields; the
    service is left as it was. *)
Theorem not_connected_never_sends (w : world) (p m : string)
    (envSecret : option string) (apiToken : string) :
  isConnected (this w) = false ->
  p <> "" -> m <> "" ->
  let secret := js_or envSecret (Some apiToken) in
  (passes_validation (Some p) (Some m) = true ->
   result (post_message (Some p) (Some m)) w = Returned ServiceUnavailable) /\
  sent (exec (post_message (Some p) (Some m)) w) = sent w /\
  this (exec (post_message (Some p) (Some m)) w) = this w /\
  webhook_notify envSecret apiToken (Some p) (Some m) secret w =
    (Returned
       (WebhookInternalServerError
          "WhatsApp is not connected. Please scan the QR code first.",
        [ApiWebhookFailed
           "WhatsApp is not connected. Please scan the QR code first." p]),
     w).
Proof.
  intros Hc Hp Hm. cbn zeta.
  assert (Htp : JS.truthy_str (Some p) = true)
    by (cbn; destruct (String.eqb_spec p ""); [contradiction | reflexivity]).
  assert (Htm : JS.truthy_str (Some m) = true)
    by (cbn; destruct (String.eqb_spec m ""); [contradiction | reflexivity]).
  split; [| split; [| split]].
  - intros Hv. unfold result. rewrite (post_message_passes _ _ w Hv).
    unfold try_catch, bind. cbn [default from_option id].
    change (default "" (Some p)) with p. change (default "" (Some m)) with m.
    rewrite (sendMessage_not_connected p m w Hc). reflexivity.
  - destruct (passes_validation (Some p) (Some m)) eqn:Hv.
    + unfold exec. rewrite (post_message_passes _ _ w Hv).
      unfold try_catch, bind.
      change (default "" (Some p)) with p. change (default "" (Some m)) with m.
      rewrite (sendMessage_not_connected p m w Hc). reflexivity.
    + apply (post_message_rejects _ _ w Hv).
  - apply post_message_this.
  - unfold webhook_notify. rewrite bool_decide_eq_true_2 by reflexivity.
    rewrite Htp, Htm. cbn [negb orb].
    change (default "" (Some p)) with p. change (default "" (Some m)) with m.
    unfold try_catch, bind. rewrite (sendMessage_not_connected p m w Hc).
    reflexivity.
Qed.

Lemma not_connected_never_sends_witness :
  let w := run [Initialize; Emit 0%nat (qr_update "2@code")] (boot 1000) in
  result (post_message (Some "+1234567890") (Some "hi")) w
    = Returned ServiceUnavailable /\
  sent (exec (post_message (Some "+1234567890") (Some "hi")) w) = [] /\
  fst (webhook_notify (Some "s3cret") "tok" (Some "+1234567890") (Some "hi")
                      (Some "s3cret") w)
    = Returned
        (WebhookInternalServerError
           "WhatsApp is not connected. Please scan the QR code first.",
         [ApiWebhookFailed
            "WhatsApp is not connected. Please scan the QR code first."
            "+1234567890"]).
Proof.
  destruct (not_connected_never_sends
              (run [Initialize; Emit 0%nat (qr_update "2@code")] (boot 1000))
              "+1234567890" "hi" (Some "s3cret") "tok")
    as (Hr & Hs & _ & Hw).
  - reflexivity.
  - discriminate.
  - discriminate.
  - split; [apply Hr; reflexivity |]. split; [exact Hs |].
    exact (f_equal fst Hw).
Defined.

(** X11. A request that [POST /message] lets through while the service
    is connected calls the socket exactly once, with the digits of the
    number followed by [@s.whatsapp.net], and never again: success is
    201 with the identifier the socket gave, a failure is 503 when its
    message contains ["not connected"] and 500 with that message
    otherwise.  With no socket stored (connected flag left behind) the
    answer is 500 and nothing is called. *)
Theorem accepted_request_calls_socket_once (w : world) (p m : string) :
  passes_validation (Some p) (Some m) = true ->
  isConnected (this w) = true ->
  let jid := JS.replace_non_digits p ++ "@s.whatsapp.net" in
  let r := result (post_message (Some p) (Some m)) w in
  let w' := exec (post_message (Some p) (Some m)) w in
  match socket (this w) with
  | Some h =>
      sent w' = (sent w ++ [mkCall h jid m])%list /\
      match sendAnswer w with
      | inr id =>
          r = Returned (Created {| success := true; messageId := id; to := jid |})
      | inl e =>
          r = Returned (if JS.includes "not connected" (error_message e)
                        then ServiceUnavailable
                        else InternalServerError (error_message e))
      end
  | None =>
      sent w' = sent w /\
      r = Returned (InternalServerError
                      "Cannot read properties of null (reading 'sendMessage')")
  end.
Proof.
  intros Hv Hc. cbn zeta. unfold result, exec.
  rewrite (post_message_passes _ _ w Hv).
  change (default "" (Some p)) with p. change (default "" (Some m)) with m.
  unfold sendMessage, socket_sendMessage. js_unfold. rewrite Hc. cbn.
  destruct (socket (this w)); cbn.
  - destruct (sendAnswer w) as [e|id]; cbn; [| auto].
    destruct (JS.includes "not connected" (error_message e)); cbn; auto.
  - auto.
Qed.

Lemma accepted_request_calls_socket_once_witness :
  let w := run [Initialize; Emit 0%nat open_update] (boot 1000) in
  sent (exec (post_message (Some "+44 20 7946 0958") (Some "hi")) w)
    = [mkCall 0 "442079460958@s.whatsapp.net" "hi"] /\
  result (post_message (Some "+44 20 7946 0958") (Some "hi")) w
    = Returned (Created {| success := true; messageId := "3EB0";
                           to := "442079460958@s.whatsapp.net" |}).
Proof.
  apply (accepted_request_calls_socket_once
           (run [Initialize; Emit 0%nat open_update] (boot 1000))
           "+44 20 7946 0958" "hi"); reflexivity.
Defined.

(** X12. [POST /webhook/notify] is opened by one secret only: the value
    of [WEBHOOK_SECRET] when it is set and not empty, the API token
    otherwise.  Any other secret, a missing one included, is answered
    401 before anything else is looked at, and nothing changes. *)
Theorem webhook_needs_the_secret (w : world) (envSecret : option string)
    (apiToken : string) (p m secret : option string) :
  let expected := if JS.truthy_str envSecret then envSecret else Some apiToken in
  (secret <> expected ->
   webhook_notify envSecret apiToken p m secret w
   = (Returned (WebhookUnauthorized, []), w)) /\
  (secret = expected ->
   fst (webhook_notify envSecret apiToken p m secret w)
   <> Returned (WebhookUnauthorized, [])) /\
  (secret = None ->
   webhook_notify envSecret apiToken p m secret w
   = (Returned (WebhookUnauthorized, []), w)).
Proof.
  cbn zeta.
  assert (Hwrong : secret <> js_or envSecret (Some apiToken) ->
                   webhook_notify envSecret apiToken p m secret w
                   = (Returned (WebhookUnauthorized, []), w)).
  { intros Hne. unfold webhook_notify.
    rewrite bool_decide_eq_false_2 by exact Hne. reflexivity. }
  split; [exact Hwrong |]. split.
  - intros ->. unfold webhook_notify. fold (js_or envSecret (Some apiToken)).
    rewrite bool_decide_eq_true_2 by reflexivity. cbn [negb].
    destruct (negb (JS.truthy_str p) || negb (JS.truthy_str m));
      [discriminate |].
    unfold try_catch, bind.
    destruct (sendMessage (default "" p) (default "" m) w) as [[r|e] w1];
      discriminate.
  - intros ->. apply Hwrong. unfold js_or.
    destruct (JS.truthy_str envSecret) eqn:E; [| discriminate].
    destruct envSecret; [discriminate | discriminate E].
Qed.

Lemma webhook_needs_the_secret_witness :
  let w := run [Initialize; Emit 0%nat open_update] (boot 1000) in
  webhook_notify (Some "") "tok" (Some "1234567890") (Some "hi") (Some "") w
    = (Returned (WebhookUnauthorized, []), w) /\
  fst (webhook_notify (Some "") "tok" (Some "1234567890") (Some "hi")
                      (Some "tok") w)
    <> Returned (WebhookUnauthorized, []) /\
  webhook_notify None "tok" (Some "1234567890") (Some "hi") None w
    = (Returned (WebhookUnauthorized, []), w).
Proof.
  destruct (webhook_needs_the_secret
              (run [Initialize; Emit 0%nat open_update] (boot 1000))
              (Some "") "tok" (Some "1234567890") (Some "hi") (Some ""))
    as (Hwrong & _ & _).
  destruct (webhook_needs_the_secret
              (run [Initialize; Emit 0%nat open_update] (boot 1000))
              (Some "") "tok" (Some "1234567890") (Some "hi") (Some "tok"))
    as (_ & Hright & _).
  destruct (webhook_needs_the_secret
              (run [Initialize; Emit 0%nat open_update] (boot 1000))
              None "tok" (Some "1234567890") (Some "hi") None)
    as (_ & _ & Hnone).
  split; [apply Hwrong; cbn; discriminate |].
  split; [apply Hright; reflexivity | apply Hnone; reflexivity].
Defined.



(** X14. [GET /qr] reads and never writes the service.  It answers 404
    exactly when the status read says there is no pairing code, 500
    when the code cannot be rendered, and otherwise the page whose image
    is the rendering of the stored code; after an ['open'] update it
    answers 404. *)
Theorem get_qr_answers (w : world) :
  this (exec get_qr w) = this w /\
  (result get_qr w = Returned (QrNotFound, [])
   <-> st_hasQR (getStatus w) = false) /\
  (st_hasQR (getStatus w) = true ->
   result get_qr w =
   match qrRenderError w with
   | None => Returned (QrPage (DataURL (default "" (qr (this w)))), [])
   | Some e => Returned (QrInternalServerError, [ApiQRFailed (error_message e)])
   end) /\
  (forall h u, (h < length (handles w))%nat ->
               upd_connection u = Some ConnOpen ->
               result get_qr (exec (emit h u) w) = Returned (QrNotFound, [])).
Proof.
  assert (E : forall v,
            this (exec get_qr v) = this v /\
            result get_qr v =
            if JS.truthy_str (qr (this v))
            then match qrRenderError v with
                 | None => Returned (QrPage (DataURL (default "" (qr (this v)))), [])
                 | Some e =>
                     Returned (QrInternalServerError,
                               [ApiQRFailed (error_message e)])
                 end
            else Returned (QrNotFound, [])).
  { intros v. unfold get_qr, getQRCode, qrcode_toDataURL. js_unfold.
    destruct (JS.truthy_str (qr (this v))); cbn; [| auto].
    destruct (qrRenderError v); cbn; auto. }
  destruct (E w) as [Ht Hr].
  split; [exact Ht |]. unfold getStatus. cbn [st_hasQR]. split; [| split].
  - rewrite Hr. destruct (JS.truthy_str (qr (this w))).
    + destruct (qrRenderError w); split; discriminate.
    + split; reflexivity.
  - intros Hq. rewrite Hr, Hq. reflexivity.
  - intros h u Hh Ho.
    assert (Eo : exec (emit h u) w =
                 exec (handleConnectionUpdate u)
                      (set_handles (note_report h u (handles w)) w))
      by (unfold exec; rewrite (emit_registered h u w Hh); reflexivity).
    destruct (handle_open u (set_handles (note_report h u (handles w)) w) Ho)
      as (_ & Hq & _).
    rewrite <- Eo in Hq.
    destruct (E (exec (emit h u) w)) as [_ Hr2]. rewrite Hr2, Hq. reflexivity.
Qed.

Lemma get_qr_answers_witness :
  let w := run [Initialize; Emit 0%nat (qr_update "2@code")] (boot 1000) in
  result get_qr w = Returned (QrPage (DataURL "2@code"), []) /\
  result get_qr (exec (emit 0%nat open_update) w) = Returned (QrNotFound, []).
Proof.
  destruct (get_qr_answers
              (run [Initialize; Emit 0%nat (qr_update "2@code")] (boot 1000)))
    as (_ & _ & Hpage & Hopen).
  split.
  - apply Hpage. reflexivity.
  - apply Hopen; [vm_compute; lia | reflexivity].
Defined.

(* ------------------------------------------------------------------ *)
(** ** The token of a request *)

Lemma truthy_str_true (o : option string) :
  JS.truthy_str o = true <-> exists t, o = Some t /\ t <> "".
Proof.
  destruct o as [t|]; cbn.
  - destruct (String.eqb_spec t ""); cbn; split.
    + discriminate.
    + intros (t' & [= <-] & Hne). contradiction.
    + eauto.
    + reflexivity.
  - split; [discriminate | intros (t & H & _); discriminate].
Qed.

Lemma authMiddleware_passes (apiToken : string) (req : request) :
  request_token req = Some apiToken -> apiToken <> "" ->
  fst (authMiddleware apiToken req) = AuthNext.
Proof.
  intros Hr Hne. unfold authMiddleware. rewrite Hr.
  assert (Ht : JS.truthy_str (Some apiToken) = true)
    by (apply truthy_str_true; eauto).
  rewrite Ht. cbn [negb]. change (default "" (Some apiToken)) with apiToken.
  rewrite String.eqb_refl. reflexivity.
Qed.



Lemma js_or_l (a b : option string) :
  JS.truthy_str a = true -> js_or a b = a.
Proof. unfold js_or. intros ->. reflexivity. Qed.

Lemma js_or_r (a b : option string) :
  JS.truthy_str a = false -> js_or a b = b.
Proof. unfold js_or. intros ->. reflexivity. Qed.

Lemma replace_first_bearer (t : string) :
  replace_first "Bearer " "" ("Bearer " ++ t) = t.
Proof. destruct t; reflexivity. Qed.

(** X16. Where the token is read from: the [Authorization] header
    comes first, with its first ["Bearer "] removed; only when it is
    absent or nothing is left of it is [x-api-token] read, and only then
    the [token] of the query.  So ["Bearer " ++ token] passes whatever
    the other two hold, a wrong [Authorization] is refused even beside a
    right [x-api-token], and a request with none of the three is told
    that a token is required. *)
Theorem auth_token_precedence (apiToken : string) (x q : option string) :
  apiToken <> "" ->
  fst (authMiddleware apiToken
         (mkRequest (Some ("Bearer " ++ apiToken)) x q)) = AuthNext /\
  (forall a,
     replace_first "Bearer " "" a <> "" ->
     replace_first "Bearer " "" a <> apiToken ->
     fst (authMiddleware apiToken (mkRequest (Some a) (Some apiToken) (Some apiToken)))
     = AuthUnauthorized "Invalid API token") /\
  fst (authMiddleware apiToken (mkRequest None (Some apiToken) q)) = AuthNext /\
  fst (authMiddleware apiToken (mkRequest (Some "Bearer ") (Some apiToken) q))
    = AuthNext /\
  fst (authMiddleware apiToken (mkRequest None None (Some apiToken))) = AuthNext /\
  fst (authMiddleware apiToken (mkRequest None (Some "") (Some apiToken)))
    = AuthNext /\
  authMiddleware apiToken (mkRequest None None None)
    = (AuthUnauthorized "API token is required", [ApiNoToken]).
Proof.
  intros Hne.
  assert (Ht : JS.truthy_str (Some apiToken) = true)
    by (apply truthy_str_true; eauto).
  assert (Hpass : forall req, request_token req = Some apiToken ->
                              fst (authMiddleware apiToken req) = AuthNext).
  { intros req Hr. apply authMiddleware_passes; assumption. }
  split; [| split; [| split; [| split; [| split; [| split]]]]].
  - apply Hpass. unfold request_token. cbn [header_authorization option_map
      header_x_api_token query_token].
    rewrite replace_first_bearer, (js_or_l (Some apiToken) x Ht).
    apply js_or_l. exact Ht.
  - intros a Hne1 Hne2. unfold authMiddleware, request_token.
    cbn [header_authorization header_x_api_token query_token option_map].
    assert (Ha : JS.truthy_str (Some (replace_first "Bearer " "" a)) = true)
      by (apply truthy_str_true; eauto).
    rewrite (js_or_l _ (Some apiToken) Ha), (js_or_l _ (Some apiToken) Ha), Ha.
    cbn [negb].
    change (default "" (Some (replace_first "Bearer " "" a)))
      with (replace_first "Bearer " "" a).
    destruct (String.eqb_spec (replace_first "Bearer " "" a) apiToken);
      [contradiction | reflexivity].
  - apply Hpass. unfold request_token. cbn [header_authorization option_map
      header_x_api_token query_token].
    rewrite (js_or_r None (Some apiToken) eq_refl). apply js_or_l. exact Ht.
  - apply Hpass. unfold request_token. cbn [header_authorization option_map
      header_x_api_token query_token].
    change (replace_first "Bearer " "" "Bearer ") with "".
    rewrite (js_or_r (Some "") (Some apiToken) eq_refl). apply js_or_l. exact Ht.
  - apply Hpass. reflexivity.
  - apply Hpass. reflexivity.
  - reflexivity.
Qed.

Lemma auth_token_precedence_witness :
  fst (authMiddleware "7c9e6679"
         (mkRequest (Some "Bearer 7c9e6679") (Some "other") None)) = AuthNext /\
  fst (authMiddleware "7c9e6679"
         (mkRequest (Some "Bearer wrong") (Some "7c9e6679") (Some "7c9e6679")))
    = AuthUnauthorized "Invalid API token" /\
  fst (authMiddleware "7c9e6679" (mkRequest None None (Some "7c9e6679")))
    = AuthNext.
Proof.
  destruct (auth_token_precedence "7c9e6679" (Some "other") None)
    as (Hb & Hw & _ & _ & Hq & _); [discriminate |].
  split; [exact Hb |]. split; [| exact Hq].
  apply (Hw "Bearer wrong"); discriminate.
Defined.

(* ------------------------------------------------------------------ *)
(** ** The API token at start *)

Lemma starts_with_app (sub rest : string) :
  JS.starts_with sub (sub ++ rest) = true.
Proof.
  induction sub as [|c sub IH]; [reflexivity |].
  change (String c sub ++ rest) with (String c (sub ++ rest)).
  cbn [JS.starts_with]. rewrite Ascii.eqb_refl. exact IH.
Qed.

Lemma includes_unfold (sub s : string) :
  JS.includes sub s =
  JS.starts_with sub s ||
  match s with
  | EmptyString => false
  | String _ r => JS.includes sub r
  end.
Proof. destruct s; reflexivity. Qed.

Lemma includes_here (sub rest : string) :
  JS.includes sub (sub ++ rest) = true.
Proof. rewrite includes_unfold, starts_with_app. reflexivity. Qed.

Lemma includes_skip (sub a s : string) :
  JS.includes sub s = true -> JS.includes sub (a ++ s) = true.
Proof.
  intros H. induction a as [|c a IH]; [exact H |].
  change (String c a ++ s) with (String c (a ++ s)).
  rewrite includes_unfold, IH. apply orb_true_r.
Qed.

Lemma string_app_assoc (a b c : string) : (a ++ b) ++ c = a ++ (b ++ c).
Proof.
  induction a as [|x a IH]; [reflexivity |].
  change ((String x a ++ b) ++ c) with (String x ((a ++ b) ++ c)).
  change (String x a ++ (b ++ c)) with (String x (a ++ (b ++ c))).
  rewrite IH. reflexivity.
Qed.

Lemma string_app_empty (a : string) : a ++ "" = a.
Proof.
  induction a as [|x a IH]; [reflexivity |].
  change (String x a ++ "") with (String x (a ++ "")). rewrite IH. reflexivity.
Qed.

(** X17. The token the server runs with is never empty (given a
    non-empty UUID); an [.env] that exists is never shortened or
    rewritten, only appended to; and whenever a token is generated and
    written (no [.env], or one that does not mention [API_TOKEN=]) the
    file afterwards holds the line [API_TOKEN=<token>].  But when the
    file already mentions [API_TOKEN=] and the variable is empty, a new
    token is taken and nothing is saved. *)
Theorem api_token_at_start (envToken : option string) (uuid : string)
    (envFile : option string) :
  uuid <> "" ->
  let token := fst (load_api_token envToken uuid envFile) in
  let file' := snd (load_api_token envToken uuid envFile) in
  token <> "" /\
  (forall envContent, envFile = Some envContent ->
     exists added, file' = Some (envContent ++ added)) /\
  (JS.truthy_str envToken = true -> Some token = envToken /\ file' = envFile) /\
  (JS.truthy_str envToken = false ->
   token = uuid /\
   match envFile with
   | Some envContent =>
       if JS.includes "API_TOKEN=" envContent
       then file' = envFile
       else exists content, file' = Some content /\
                            JS.includes ("API_TOKEN=" ++ uuid) content = true
   | None =>
       exists content, file' = Some content /\
                       JS.includes ("API_TOKEN=" ++ uuid) content = true
   end).
Proof.
  intros Hu. cbn zeta. unfold load_api_token.
  destruct (JS.truthy_str envToken) eqn:Ht; cbn [negb].
  - apply truthy_str_true in Ht as (t & -> & Hne). cbn.
    split; [exact Hne |]. split; [| split; [auto | discriminate]].
    intros c ->. exists "". rewrite string_app_empty. reflexivity.
  - split; [| split; [| split; [discriminate |]]].
    + destruct envFile as [c|]; [destruct (JS.includes "API_TOKEN=" c) |];
        exact Hu.
    + intros c ->. destruct (JS.includes "API_TOKEN=" c); cbn.
      * exists "". rewrite string_app_empty. reflexivity.
      * eexists. reflexivity.
    + intros _. destruct envFile as [c|].
      * destruct (JS.includes "API_TOKEN=" c); cbn; [auto |].
        split; [reflexivity |]. eexists. split; [reflexivity |].
        do 4 apply includes_skip.
        rewrite <- (string_app_assoc "API_TOKEN=" uuid newline).
        apply includes_here.
      * cbn. split; [reflexivity |]. eexists. split; [reflexivity |].
        unfold defaultEnv. do 9 apply includes_skip.
        rewrite <- (string_app_assoc "API_TOKEN=" uuid).
        apply includes_here.
Qed.

Lemma api_token_at_start_witness :
  load_api_token (Some "") "9b2f" (Some ("API_TOKEN=" ++ newline))
    = ("9b2f", Some ("API_TOKEN=" ++ newline)) /\
  fst (load_api_token None "9b2f" (Some "PORT=3000")) = "9b2f" /\
  JS.includes "API_TOKEN=9b2f"
    (default "" (snd (load_api_token None "9b2f" (Some "PORT=3000")))) = true /\
  JS.includes "API_TOKEN=9b2f"
    (default "" (snd (load_api_token None "9b2f" None))) = true.
Proof.
  destruct (api_token_at_start None "9b2f" (Some "PORT=3000"))
    as (_ & _ & _ & H); [discriminate |].
  destruct (H eq_refl) as (Ht & content & Hc & Hi).
  split; [reflexivity |]. split; [exact Ht |]. split; [| reflexivity].
  cbn in Hc. injection Hc as <-. exact Hi.
Defined.

(* ------------------------------------------------------------------ *)
(** ** The log manager *)

Section LogManagerFacts.

Variable L : Type.

Lemma tl_skipn (l : list L) : tl l = skipn 1 l.
Proof. destruct l; reflexivity. Qed.

Lemma broadcast_buffer (writable : nat -> bool) (entry : L) (m : log_manager L) :
  (length (logBuffer m) <= maxBufferSize m)%nat ->
  logBuffer (broadcast writable entry m) =
    skipn (length (logBuffer m ++ [entry]) - maxBufferSize m)
          (logBuffer m ++ [entry]) /\
  (length (logBuffer (broadcast writable entry m)) <= maxBufferSize m)%nat /\
  maxBufferSize (broadcast writable entry m) = maxBufferSize m.
Proof.
  intros Hle. unfold broadcast. cbn [logBuffer maxBufferSize].
  rewrite length_app. cbn [length].
  destruct (Nat.ltb_spec (maxBufferSize m) (length (logBuffer m) + 1)).
  - replace (length (logBuffer m) + 1 - maxBufferSize m)%nat with 1%nat by lia.
    rewrite tl_skipn. repeat split.
    rewrite length_skipn, length_app. cbn. lia.
  - replace (length (logBuffer m) + 1 - maxBufferSize m)%nat with 0%nat by lia.
    cbn [skipn]. repeat split. rewrite length_app. cbn. lia.
Qed.

(** X18. The buffer is a window on the log: after any run of
    broadcasts it holds the entries broadcast, oldest first, cut down to
    the [maxBufferSize] latest; it never grows beyond that size.  For
    the manager as constructed, that is the last 100 entries. *)
Theorem buffer_holds_latest (entries : list ((nat -> bool) * L))
    (m : log_manager L) :
  (length (logBuffer m) <= maxBufferSize m)%nat ->
  let all := (logBuffer m ++ map snd entries)%list in
  logBuffer (broadcast_all entries m) =
    skipn (length all - maxBufferSize m) all /\
  (length (logBuffer (broadcast_all entries m)) <= maxBufferSize m)%nat /\
  maxBufferSize (broadcast_all entries m) = maxBufferSize m /\
  logBuffer (broadcast_all entries new_log_manager) =
    skipn (length entries - 100) (map snd entries).
Proof.
  assert (H : forall (es : list ((nat -> bool) * L)) (m0 : log_manager L),
            (length (logBuffer m0) <= maxBufferSize m0)%nat ->
            logBuffer (broadcast_all es m0) =
              skipn (length (logBuffer m0 ++ map snd es) - maxBufferSize m0)
                    (logBuffer m0 ++ map snd es) /\
            (length (logBuffer (broadcast_all es m0)) <= maxBufferSize m0)%nat /\
            maxBufferSize (broadcast_all es m0) = maxBufferSize m0).
  { induction es as [|[ok e] es IH]; intros m0 Hle.
    - cbn. rewrite app_nil_r.
      replace (length (logBuffer m0) - maxBufferSize m0)%nat with 0%nat by lia.
      auto.
    - change (broadcast_all ((ok, e) :: es) m0)
        with (broadcast_all es (broadcast ok e m0)).
      destruct (broadcast_buffer ok e m0 Hle) as (Hb & Hl & Hm).
      destruct (IH (broadcast ok e m0)) as (Hb' & Hl' & Hm');
        [rewrite Hm; exact Hl |].
      split; [| split; [rewrite <- Hm; exact Hl' | rewrite Hm'; exact Hm]].
      rewrite Hb', Hm, Hb. cbn [map snd].
      set (X := (logBuffer m0 ++ [e])%list).
      set (d := (length X - maxBufferSize m0)%nat).
      assert (E : (skipn d X ++ map snd es)%list = skipn d (X ++ map snd es)).
      { rewrite skipn_app. replace (d - length X)%nat with 0%nat by lia.
        reflexivity. }
      rewrite E, skipn_skipn. unfold X. rewrite <- app_assoc. cbn [app].
      f_equal. rewrite length_skipn.
      fold X. unfold d.
      assert (length (X ++ map snd es) = length (logBuffer m0 ++ e :: map snd es))
        by (unfold X; rewrite <- app_assoc; reflexivity).
      assert (length X <= length (X ++ map snd es))%nat
        by (rewrite length_app; lia).
      assert (length X = S (length (logBuffer m0)))
        by (unfold X; rewrite length_app; cbn; lia).
      lia. }
  intros Hle. cbn zeta. destruct (H entries m Hle) as (H1 & H2 & H3).
  do 3 (split; [assumption |]).
  destruct (H entries new_log_manager) as (H4 & _); [cbn; lia |].
  rewrite H4. cbn [logBuffer new_log_manager maxBufferSize app].
  rewrite length_map. reflexivity.
Qed.

End LogManagerFacts.

Lemma buffer_holds_latest_witness :
  let m := mkLogManager Z [7%nat] [10; 20] 3 [] in
  let entries := [(fun _ : nat => true, 30); (fun _ => false, 40);
                  (fun _ => true, 50)] in
  logBuffer (broadcast_all entries m) = [30; 40; 50] /\
  logBuffer (broadcast_all entries (@new_log_manager Z)) = [30; 40; 50].
Proof.
  destruct (buffer_holds_latest Z
              [(fun _ : nat => true, 30); (fun _ => false, 40);
               (fun _ => true, 50)]
              (mkLogManager Z [7%nat] [10; 20] 3 []))
    as (Hb & _ & _ & Hn).
  - cbn. lia.
  - split; [exact Hb | exact Hn].
Defined.

Section LogClients.

Variable L : Type.

Lemma broadcast_fold (writable : nat -> bool) (entry : L) (l cur : list nat)
    (out : list (nat * L)) :
  fold_left
    (fun st client =>
       if writable client
       then (fst st, (snd st ++ [(client, entry)])%list)
       else (List.filter (fun c => negb (Nat.eqb c client)) (fst st), snd st))
    l (cur, out)
  = (List.filter (fun x => writable x || negb (existsb (Nat.eqb x) l)) cur,
     (out ++ map (fun c => (c, entry)) (List.filter writable l))%list).
Proof.
  revert cur out. induction l as [|c l IH]; intros cur out.
  - cbn. rewrite app_nil_r. f_equal. symmetry. apply filter_all.
    intros x _. apply orb_true_r.
  - cbn [fold_left fst snd]. destruct (writable c) eqn:Hc.
    + rewrite IH. cbn [List.filter]. rewrite Hc. cbn [map].
      rewrite <- app_assoc. cbn [app]. f_equal.
      apply filter_ext. intros x. cbn [existsb].
      destruct (Nat.eqb_spec x c) as [-> |]; [rewrite Hc |]; reflexivity.
    + rewrite IH. cbn [List.filter]. rewrite Hc. f_equal.
      rewrite filter_andb. apply filter_ext. intros x. cbn [existsb].
      destruct (Nat.eqb_spec x c) as [-> |]; cbn; [rewrite Hc |]; reflexivity.
Qed.

Lemma existsb_eqb_In (c : nat) (l : list nat) :
  existsb (Nat.eqb c) l = true <-> In c l.
Proof.
  rewrite existsb_exists. split.
  - intros (x & Hx & He). apply Nat.eqb_eq in He. subst. exact Hx.
  - intros H. exists c. split; [exact H | apply Nat.eqb_refl].
Qed.

Lemma broadcast_effects (writable : nat -> bool) (entry : L) (m : log_manager L) :
  clients (broadcast writable entry m) = List.filter writable (clients m) /\
  written (broadcast writable entry m) =
    (written m ++ map (fun c => (c, entry)) (List.filter writable (clients m)))%list.
Proof.
  unfold broadcast, set_delete. cbn [clients written].
  rewrite broadcast_fold. cbn [fst snd]. split; [| reflexivity].
  apply filter_ext_in. intros x Hx.
  apply existsb_eqb_In in Hx. rewrite Hx. apply orb_false_r.
Qed.

Lemma received_app (c : nat) (w1 w2 : list (nat * L)) (cl : list nat) (ok : nat -> bool) :
  map snd (List.filter (fun f => Nat.eqb (fst f) c) (w1 ++ w2)) =
  (map snd (List.filter (fun f => Nat.eqb (fst f) c) w1)
   ++ map snd (List.filter (fun f => Nat.eqb (fst f) c) w2))%list.
Proof. rewrite List.filter_app, map_app. reflexivity. Qed.

Lemma frames_of_one (c : nat) (entry : L) (l : list nat) :
  List.NoDup l ->
  map snd (List.filter (fun f => Nat.eqb (fst f) c)
                       (map (fun x => (x, entry)) l))
  = if existsb (Nat.eqb c) l then [entry] else [].
Proof.
  induction 1 as [|x l Hx Hnd IH]; [reflexivity |].
  cbn [map List.filter fst existsb]. rewrite (Nat.eqb_sym c x).
  destruct (Nat.eqb_spec x c) as [-> | Hne]; cbn [orb map snd].
  - rewrite IH.
    destruct (existsb (Nat.eqb c) l) eqn:E; [| reflexivity].
    apply existsb_eqb_In in E. contradiction.
  - exact IH.
Qed.

Lemma existsb_filter (c : nat) (ok : nat -> bool) (l : list nat) :
  existsb (Nat.eqb c) (List.filter ok l) = existsb (Nat.eqb c) l && ok c.
Proof.
  induction l as [|x l IH]; [reflexivity |]. cbn [List.filter existsb].
  destruct (ok x) eqn:Hx; cbn [existsb]; rewrite IH;
    destruct (Nat.eqb_spec c x) as [-> |]; cbn; rewrite ?Hx;
    try reflexivity.
  destruct (existsb (Nat.eqb x) l); reflexivity.
Qed.

Lemma broadcast_received (writable : nat -> bool) (entry : L)
    (m : log_manager L) (c : nat) :
  List.NoDup (clients m) ->
  received c (broadcast writable entry m) =
    (received c m
     ++ if existsb (Nat.eqb c) (clients m) && writable c then [entry] else [])%list.
Proof.
  intros Hnd. destruct (broadcast_effects writable entry m) as (_ & Hw).
  unfold received. rewrite Hw, List.filter_app, map_app.
  rewrite frames_of_one by (apply List.NoDup_filter; exact Hnd).
  rewrite existsb_filter. reflexivity.
Qed.

(** X19. One broadcast writes the entry once to every registered
    client that can be written to, and to nobody else; the clients
    whose write throws are removed from the set, the others stay. *)
Theorem broadcast_reaches_live_clients (writable : nat -> bool) (entry : L)
    (m : log_manager L) :
  List.NoDup (clients m) ->
  let m' := broadcast writable entry m in
  clients m' = List.filter writable (clients m) /\
  List.NoDup (clients m') /\
  forall c,
    received c m' =
    (received c m
     ++ if existsb (Nat.eqb c) (clients m) && writable c then [entry] else [])%list.
Proof.
  intros Hnd. cbn zeta.
  destruct (broadcast_effects writable entry m) as (Hc & Hw).
  split; [exact Hc |]. split; [rewrite Hc; apply List.NoDup_filter; exact Hnd |].
  intros c. apply broadcast_received. exact Hnd.
Qed.

Lemma addClient_effects (writable : nat -> bool) (res : nat) (m : log_manager L) :
  written (addClient writable res m) =
    (written m ++ if writable res
                  then map (fun e => (res, e)) (logBuffer m) else [])%list.
Proof.
  unfold addClient. cbn [written].
  generalize (written m). induction (logBuffer m) as [|e b IH]; intros out.
  - cbn. destruct (writable res); rewrite app_nil_r; reflexivity.
  - cbn [fold_left]. rewrite IH. destruct (writable res); [| reflexivity].
    cbn [map]. rewrite <- app_assoc. reflexivity.
Qed.

Lemma set_add_facts (res : nat) (l : list nat) :
  List.NoDup l -> List.NoDup (set_add res l) /\ In res (set_add res l).
Proof.
  intros Hnd. unfold set_add.
  destruct (existsb (Nat.eqb res) l) eqn:E.
  - apply existsb_eqb_In in E. auto.
  - split; [| apply in_or_app; right; now left].
    apply List.NoDup_app; [exact Hnd | constructor; [intros [] | constructor] |].
    intros x Hx [<- | []]. apply existsb_eqb_In in Hx. congruence.
Qed.

Lemma broadcast_all_received (entries : list ((nat -> bool) * L))
    (m : log_manager L) (res : nat) :
  List.NoDup (clients m) ->
  In res (clients m) ->
  forallb (fun e => fst e res) entries = true ->
  received res (broadcast_all entries m) =
    (received res m ++ map snd entries)%list /\
  In res (clients (broadcast_all entries m)).
Proof.
  revert m. induction entries as [|[ok e] es IH]; intros m Hnd Hin Hall.
  - cbn. rewrite app_nil_r. auto.
  - cbn [forallb fst] in Hall. apply andb_prop in Hall as [Hok Hall].
    change (broadcast_all ((ok, e) :: es) m)
      with (broadcast_all es (broadcast ok e m)).
    destruct (broadcast_effects ok e m) as (Hc & _).
    pose proof (broadcast_received ok e m res Hnd) as Hr.
    destruct (IH (broadcast ok e m)) as [Hr' Hin'];
      [rewrite Hc; apply List.NoDup_filter; exact Hnd | | exact Hall |].
    { rewrite Hc. apply filter_In. auto. }
    split; [| exact Hin'].
    rewrite Hr', Hr. apply existsb_eqb_In in Hin. rewrite Hin, Hok.
    cbn [andb map snd]. rewrite <- app_assoc. reflexivity.
Qed.

(** X20. A client that joins with [addClient] and whose writes succeed
    receives first the buffered entries, oldest first, then every entry
    broadcast afterwards, each once and in order, and it stays
    registered. *)
Theorem joined_client_sees_buffer_then_stream (writable : nat -> bool)
    (res : nat) (entries : list ((nat -> bool) * L)) (m : log_manager L) :
  List.NoDup (clients m) ->
  writable res = true ->
  forallb (fun e => fst e res) entries = true ->
  let m' := broadcast_all entries (addClient writable res m) in
  received res m' = (received res m ++ logBuffer m ++ map snd entries)%list /\
  In res (clients m').
Proof.
  intros Hnd Hok Hall. cbn zeta.
  destruct (set_add_facts res (clients m) Hnd) as [Hnd1 Hin1].
  destruct (broadcast_all_received entries (addClient writable res m) res)
    as [Hr Hin]; [exact Hnd1 | exact Hin1 | exact Hall |].
  split; [| exact Hin].
  rewrite Hr. unfold received at 1. rewrite addClient_effects, Hok.
  rewrite List.filter_app, map_app, <- app_assoc. f_equal. f_equal.
  induction (logBuffer m) as [|e b IH]; [reflexivity |].
  cbn [map List.filter fst]. rewrite Nat.eqb_refl. cbn [map snd].
  rewrite IH. reflexivity.
Qed.

Lemma frames_of_none (c : nat) (entry : L) (l : list nat) :
  ~ In c l ->
  map snd (List.filter (fun f => Nat.eqb (fst f) c)
                       (map (fun x => (x, entry)) l)) = [].
Proof.
  induction l as [|x l IH]; intros Hn; [reflexivity |].
  cbn [map List.filter fst].
  destruct (Nat.eqb_spec x c) as [-> | Hne]; [elim Hn; now left |].
  apply IH. intros H. apply Hn. now right.
Qed.

(** X21. After [removeClient] nothing more is written to the client,
    whatever is broadcast; and a client that was added while its writes
    failed received nothing of the buffer but is registered all the
    same, until the first broadcast it fails removes it. *)
Theorem removed_client_gets_nothing (res : nat)
    (entries : list ((nat -> bool) * L)) (m : log_manager L) :
  received res (broadcast_all entries (removeClient res m)) = received res m /\
  ~ In res (clients (broadcast_all entries (removeClient res m))) /\
  (forall writable entry,
     writable res = false ->
     List.NoDup (clients m) ->
     received res (addClient writable res m) = received res m /\
     In res (clients (addClient writable res m)) /\
     ~ In res (clients (broadcast writable entry (addClient writable res m)))).
Proof.
  assert (H : forall (es : list ((nat -> bool) * L)) (m0 : log_manager L),
            ~ In res (clients m0) ->
            received res (broadcast_all es m0) = received res m0 /\
            ~ In res (clients (broadcast_all es m0))).
  { induction es as [|[ok e] es IH]; intros m0 Hn; [auto |].
    change (broadcast_all ((ok, e) :: es) m0)
      with (broadcast_all es (broadcast ok e m0)).
    destruct (broadcast_effects ok e m0) as (Hc & Hw).
    destruct (IH (broadcast ok e m0)) as [Hr Hn'].
    { rewrite Hc. intros Hin. apply filter_In in Hin as [Hin _]. auto. }
    split; [| exact Hn']. rewrite Hr. unfold received.
    rewrite Hw, List.filter_app, map_app, frames_of_none, app_nil_r;
      [reflexivity |].
    intros Hin. apply filter_In in Hin as [Hin _]. auto. }
  assert (Hrem : ~ In res (clients (removeClient res m))).
  { unfold removeClient, set_delete. cbn [clients]. intros Hin.
    apply filter_In in Hin as [_ Hin]. rewrite Nat.eqb_refl in Hin.
    discriminate. }
  destruct (H entries (removeClient res m) Hrem) as [Hr Hn].
  split; [exact Hr |]. split; [exact Hn |].
  intros writable entry Hw Hnd.
  destruct (set_add_facts res (clients m) Hnd) as [_ Hin].
  split; [| split; [exact Hin |]].
  - unfold received. rewrite addClient_effects, Hw, app_nil_r. reflexivity.
  - destruct (broadcast_effects writable entry (addClient writable res m))
      as (Hc & _).
    rewrite Hc. intros Hf. apply filter_In in Hf as [_ Hf]. congruence.
Qed.

End LogClients.

Lemma broadcast_reaches_live_clients_witness :
  let m := mkLogManager Z [3%nat; 5%nat; 8%nat] [] 100 [] in
  let m' := broadcast (fun c => negb (Nat.eqb c 5)) 42 m in
  clients m' = [3%nat; 8%nat] /\
  received 3%nat m' = [42] /\
  received 5%nat m' = [] /\
  received 9%nat m' = [].
Proof.
  destruct (broadcast_reaches_live_clients Z (fun c => negb (Nat.eqb c 5)) 42
              (mkLogManager Z [3%nat; 5%nat; 8%nat] [] 100 []))
    as (Hc & _ & Hr).
  - repeat constructor; cbn; intuition discriminate.
  - split; [exact Hc |].
    split; [exact (Hr 3%nat) |]. split; [exact (Hr 5%nat) | exact (Hr 9%nat)].
Defined.

Lemma joined_client_sees_buffer_then_stream_witness :
  let m := broadcast_all [(fun _ : nat => true, 1); (fun _ => true, 2)]
                         (@new_log_manager Z) in
  let m' := broadcast_all [(fun _ : nat => true, 3); (fun _ => true, 4)]
                          (addClient (fun _ => true) 7%nat m) in
  received 7%nat m' = [1; 2; 3; 4] /\ In 7%nat (clients m').
Proof.
  apply (joined_client_sees_buffer_then_stream Z (fun _ => true) 7%nat
           [(fun _ : nat => true, 3); (fun _ => true, 4)]
           (broadcast_all [(fun _ : nat => true, 1); (fun _ => true, 2)]
                          (@new_log_manager Z))).
  - constructor.
  - reflexivity.
  - reflexivity.
Defined.

Lemma removed_client_gets_nothing_witness :
  let m := mkLogManager Z [3%nat; 5%nat] [1; 2] 100 [(3%nat, 2)] in
  received 3%nat
    (broadcast_all [(fun _ : nat => true, 9)] (removeClient 3%nat m)) = [2] /\
  received 6%nat (addClient (fun _ => false) 6%nat m) = [] /\
  In 6%nat (clients (addClient (fun _ => false) 6%nat m)) /\
  ~ In 6%nat (clients (broadcast (fun _ => false) 9
                                 (addClient (fun _ => false) 6%nat m))).
Proof.
  destruct (removed_client_gets_nothing Z 3%nat [(fun _ : nat => true, 9)]
              (mkLogManager Z [3%nat; 5%nat] [1; 2] 100 [(3%nat, 2)]))
    as (Hr & _ & _).
  destruct (removed_client_gets_nothing Z 6%nat []
              (mkLogManager Z [3%nat; 5%nat] [1; 2] 100 [(3%nat, 2)]))
    as (_ & _ & Hfail).
  destruct (Hfail (fun _ => false) 9 eq_refl) as (H1 & H2 & H3).
  - repeat constructor; cbn; intuition discriminate.
  - split; [exact Hr |]. split; [exact H1 |]. split; assumption.
Defined.

(* ------------------------------------------------------------------ *)
(** ** The recent logs *)

Section RecentLogsFacts.

Variable J : Type.
Variable JSON_parse : string -> option J.
Variable trim : string -> string.

Lemma slice_from_cases {A} (count : Z) (l : list A) :
  slice_from (- count) l =
  if 0 <? count then skipn (length l - Z.to_nat count) l
  else skipn (Z.to_nat (- count)) l.
Proof.
  unfold slice_from.
  destruct (Z.ltb_spec 0 count).
  - destruct (Z.ltb_spec (- count) 0); [| lia]. f_equal. lia.
  - destruct (Z.ltb_spec (- count) 0); [lia |].
    destruct (Z.le_gt_cases (- count) (Z.of_nat (length l))).
    + f_equal. lia.
    + rewrite !skipn_all2 by lia. reflexivity.
Qed.

(** X22. [getRecentLogs(count)] with a positive [count] returns the
    last [count] kept lines of the file (all of them when there are
    fewer), in the order of the file, each parsed or, when it is not
    JSON, wrapped as an info entry; empty lines are never returned.
    With [count = 0] it returns every line, and with a negative [count]
    every line but the first [-count].  When the file cannot be read it
    returns the empty list. *)
Theorem recent_logs_are_the_last_lines (data : string) (now count : Z) :
  let lines := log_lines trim data in
  let wrap line :=
    match JSON_parse line with
    | Some entry => Parsed entry
    | None => Unparsed line now
    end in
  let recent := getRecentLogs J JSON_parse trim (Some data) now count in
  (0 < count ->
   recent = map wrap (skipn (length lines - Z.to_nat count) lines) /\
   length recent = Nat.min (length lines) (Z.to_nat count)) /\
  (count = 0 -> recent = map wrap lines) /\
  (count < 0 -> recent = map wrap (skipn (Z.to_nat (- count)) lines)) /\
  Forall (fun line => line <> "") lines /\
  getRecentLogs J JSON_parse trim None now count = [].
Proof.
  cbn zeta. unfold getRecentLogs. rewrite slice_from_cases.
  split; [| split; [| split; [| split; [| reflexivity]]]].
  - intros Hc. destruct (Z.ltb_spec 0 count); [| lia].
    split; [reflexivity |]. rewrite length_map, length_skipn. lia.
  - intros ->. reflexivity.
  - intros Hc. destruct (Z.ltb_spec 0 count); [lia | reflexivity].
  - unfold log_lines. apply List.Forall_forall. intros line Hin.
    apply filter_In in Hin as [_ Hne]. intros ->. discriminate.
Qed.

(** X23. Through [GET /logs] the count is never 0: a missing, unreadable
    or zero [count] gives the last 50 lines, and a positive [count] at
    most that many entries.  A negative [count] is passed on as it is,
    and then the answer is the whole file but its first lines. *)
Theorem get_logs_count (file : option string) (now : Z) :
  get_logs JSON_parse trim file now None
    = get_logs JSON_parse trim file now (Some 50) /\
  get_logs JSON_parse trim file now (Some 0)
    = get_logs JSON_parse trim file now (Some 50) /\
  (forall parsed, logs_count parsed <> 0) /\
  (forall n, 0 < n ->
     (length (get_logs JSON_parse trim file now (Some n)) <= Z.to_nat n)%nat) /\
  (forall n data, n < 0 -> file = Some data ->
     length (get_logs JSON_parse trim file now (Some n))
     = (length (log_lines trim data) - Z.to_nat (- n))%nat).
Proof.
  split; [reflexivity |]. split; [reflexivity |]. split; [| split].
  - intros [n|]; cbn; [| discriminate].
    destruct (Z.eqb_spec n 0); [discriminate | assumption].
  - intros n Hn. unfold get_logs, logs_count.
    destruct (Z.eqb_spec n 0); [lia |].
    destruct file as [data|]; [| cbn; lia].
    unfold getRecentLogs. rewrite slice_from_cases.
    destruct (Z.ltb_spec 0 n); [| lia].
    rewrite length_map, length_skipn. lia.
  - intros n data Hn ->. unfold get_logs, logs_count.
    destruct (Z.eqb_spec n 0); [lia |].
    unfold getRecentLogs. rewrite slice_from_cases.
    destruct (Z.ltb_spec 0 n); [lia |].
    rewrite length_map, length_skipn. reflexivity.
Qed.

End RecentLogsFacts.

Lemma recent_logs_are_the_last_lines_witness :
  let parse s := if String.eqb s "oops" then None else Some (String.length s) in
  let data := "{a}" ++ newline ++ "oops" ++ newline ++ newline ++ "{bcd}" ++ newline in
  getRecentLogs nat parse (fun s => s) (Some data) 99 2
    = [Unparsed "oops" 99; Parsed 5%nat] /\
  length (getRecentLogs nat parse (fun s => s) (Some data) 99 2) = 2%nat /\
  getRecentLogs nat parse (fun s => s) (Some data) 99 (-1)
    = [Unparsed "oops" 99; Parsed 5%nat].
Proof.
  destruct (recent_logs_are_the_last_lines nat
              (fun s => if String.eqb s "oops" then None else Some (String.length s))
              (fun s => s)
              ("{a}" ++ newline ++ "oops" ++ newline ++ newline ++ "{bcd}" ++ newline)
              99 2)
    as (Hpos & _).
  destruct (recent_logs_are_the_last_lines nat
              (fun s => if String.eqb s "oops" then None else Some (String.length s))
              (fun s => s)
              ("{a}" ++ newline ++ "oops" ++ newline ++ newline ++ "{bcd}" ++ newline)
              99 (-1))
    as (_ & _ & Hneg & _).
  destruct (Hpos ltac:(lia)) as (Hr & Hl).
  split; [exact Hr |]. split; [exact Hl |]. apply Hneg. lia.
Defined.

Lemma get_logs_count_witness :
  let parse s := Some (String.length s) in
  let file := Some ("a" ++ newline ++ "bb" ++ newline ++ "ccc") in
  (length (get_logs parse (fun s => s) file 0 (Some 2%Z)) <= 2)%nat /\
  length (get_logs parse (fun s => s) file 0 (Some (-2))) = 1%nat.
Proof.
  destruct (get_logs_count nat (fun s => Some (String.length s)) (fun s => s)
              (Some ("a" ++ newline ++ "bb" ++ newline ++ "ccc")) 0)
    as (_ & _ & _ & Hpos & Hneg).
  split.
  - apply (Hpos 2). lia.
  - apply (Hneg (-2) ("a" ++ newline ++ "bb" ++ newline ++ "ccc")); [lia | reflexivity].
Defined.
